(** * cbe-utils: verification of the payment-verification pipeline

    A shallow embedding of [src/constants.ts], [src/transaction-parser.ts]
    and [src/payment-verifier.ts], and the properties of the input
    classifier, the URL builder, the field extractor, the transaction
    validator and the orchestrator.

    JavaScript strings are sequences of UTF-16 code units; they are
    modelled as lists of [N].  Regular expressions are modelled by a small
    backtracking matcher that enumerates matches in the priority order of
    the ECMAScript semantics. *)

From Stdlib Require Import List NArith ZArith QArith Bool Lia Lqa.
From Stdlib Require Import Strings.String Strings.Ascii.
Import ListNotations.

(** ** JavaScript strings *)

Module JS.

(** A string is a list of UTF-16 code units. *)
Definition jsstring := list N.

(** Embedding of an ASCII literal. *)
Definition js (s : String.string) : jsstring :=
  List.map N_of_ascii (list_ascii_of_string s).

Definition in_range (lo hi c : N) : bool := (N.leb lo c && N.leb c hi)%bool.

(** ECMAScript LineTerminator: LF, CR, LS, PS. *)
Definition is_line_terminator (c : N) : bool :=
  (N.eqb c 10 || N.eqb c 13 || N.eqb c 8232 || N.eqb c 8233)%bool.

(** ECMAScript WhiteSpace and LineTerminator: the code units that [\s]
    matches and that [String.prototype.trim] strips. *)
Definition is_space (c : N) : bool :=
  (in_range 9 13 c || N.eqb c 32 || N.eqb c 160 || N.eqb c 5760
   || in_range 8192 8202 c || N.eqb c 8232 || N.eqb c 8233
   || N.eqb c 8239 || N.eqb c 8287 || N.eqb c 12288 || N.eqb c 65279)%bool.

(** [\d] *)
Definition is_digit (c : N) : bool := in_range 48 57 c.

(** [[\d,.]] *)
Definition is_amount_char (c : N) : bool :=
  (is_digit c || N.eqb c 44 || N.eqb c 46)%bool.

(** [[a-zA-Z0-9]] *)
Definition is_alnum (c : N) : bool :=
  (in_range 97 122 c || in_range 65 90 c || in_range 48 57 c)%bool.

(** [.] without the [s] flag: any code unit but a line terminator. *)
Definition is_dot (c : N) : bool := negb (is_line_terminator c).

Fixpoint dropWhile (p : N -> bool) (s : jsstring) : jsstring :=
  match s with
  | [] => []
  | c :: s' => if p c then dropWhile p s' else s
  end.

(** [String.prototype.trim] *)
Definition trim (s : jsstring) : jsstring :=
  rev (dropWhile is_space (rev (dropWhile is_space s))).

(** [String.prototype.slice(start, end)]; [None] is an omitted [end].
    Negative indices count from the end and everything is clamped to
    [0 .. length]. *)
Definition clamp_index (len i : Z) : Z :=
  if (i <? 0)%Z then Z.max (len + i) 0 else Z.min i len.

Definition slice (s : jsstring) (start : Z) (stop : option Z) : jsstring :=
  let len := Z.of_nat (List.length s) in
  let from := clamp_index len start in
  let to := match stop with Some e => clamp_index len e | None => len end in
  firstn (Z.to_nat (Z.max (to - from) 0)) (skipn (Z.to_nat from) s).

(** Truthiness of a string: the empty string is falsy. *)
Definition truthy (s : jsstring) : bool :=
  match s with [] => false | _ :: _ => true end.

(** [x || null] on a possibly undefined string. *)
Definition or_null (x : option jsstring) : option jsstring :=
  match x with
  | Some s => if truthy s then Some s else None
  | None => None
  end.

End JS.

Import JS.

(** ** Regular expressions *)

Module RegExp.

(** The fragment of the ECMAScript pattern syntax that the constants use.
    Every pattern of the repository has at most one capturing group, so
    the matcher state carries a single capture. *)
Inductive regex : Type :=
| Eps : regex
| Cls : (N -> bool) -> regex          (* one code unit of a class *)
| Seq : regex -> regex -> regex
| Alt : regex -> regex -> regex       (* r1|r2, left alternative first *)
| Star : regex -> regex               (* greedy r* *)
| Group : regex -> regex.             (* ( r ) *)

Definition chr (c : N) : regex := Cls (N.eqb c).

(** A literal run of characters. *)
Fixpoint lit_list (s : jsstring) : regex :=
  match s with
  | [] => Eps
  | c :: s' => Seq (chr c) (lit_list s')
  end.

Definition lit (s : String.string) : regex := lit_list (js s).

Definition plus (r : regex) : regex := Seq r (Star r).         (* r+ *)
Definition opt (r : regex) : regex := Alt r Eps.               (* r? *)

(** r{n} *)
Fixpoint rep (n : nat) (r : regex) : regex :=
  match n with
  | O => Eps
  | S n' => Seq r (rep n' r)
  end.

(** r{1,2} *)
Definition rep_1_2 (r : regex) : regex := Seq r (opt r).

(** Concatenation of a list of pieces. *)
Fixpoint cat (rs : list regex) : regex :=
  match rs with
  | [] => Eps
  | r :: rs' => Seq r (cat rs')
  end.

Definition dot : regex := Cls is_dot.
Definition space : regex := Cls is_space.
Definition digit : regex := Cls is_digit.
Definition alnum : regex := Cls is_alnum.

(** A matcher state: the capture of group 1 and the input still to read. *)
Definition state : Type := (option jsstring * jsstring)%type.

(** Iterations of a greedy star: one more iteration is tried before
    stopping, and an iteration that consumes nothing is rejected.  The
    fuel is the length of the input, which bounds the iterations. *)
Fixpoint star_loop (body : option jsstring -> jsstring -> list state)
         (fuel : nat) (cap : option jsstring) (s : jsstring) : list state :=
  match fuel with
  | O => [(cap, s)]
  | S fuel' =>
      flat_map (fun st : state =>
                  if Nat.ltb (List.length (snd st)) (List.length s)
                  then star_loop body fuel' (fst st) (snd st)
                  else [])
               (body cap s)
      ++ [(cap, s)]
  end.

(** All the ways [r] matches a prefix of [s], in backtracking priority
    order. *)
Fixpoint run (r : regex) (cap : option jsstring) (s : jsstring) : list state :=
  match r with
  | Eps => [(cap, s)]
  | Cls p =>
      match s with
      | c :: s' => if p c then [(cap, s')] else []
      | [] => []
      end
  | Seq a b => flat_map (fun st : state => run b (fst st) (snd st)) (run a cap s)
  | Alt a b => run a cap s ++ run b cap s
  | Star a => star_loop (run a) (List.length s) cap s
  | Group a =>
      List.map (fun st : state =>
                  (Some (firstn (List.length s - List.length (snd st)) s), snd st))
               (run a cap s)
  end.

(** The result of a successful match: where it starts, the matched text
    (element 0 of the match array) and group 1 (element 1). *)
Record match_result : Type := MatchResult {
  index : nat;
  matched : jsstring;
  group1 : option jsstring
}.

(** Leftmost match, the first in priority order at that position. *)
Fixpoint exec_from (r : regex) (i : nat) (s : jsstring) : option match_result :=
  match run r None s with
  | st :: _ =>
      Some (MatchResult i (firstn (List.length s - List.length (snd st)) s) (fst st))
  | [] =>
      match s with
      | [] => None
      | _ :: s' => exec_from r (S i) s'
      end
  end.

(** [RegExp.prototype.exec] and [String.prototype.match] for a pattern
    without the [g] and [y] flags. *)
Definition exec (r : regex) (s : jsstring) : option match_result := exec_from r 0 s.

(** [RegExp.prototype.test] *)
Definition test (r : regex) (s : jsstring) : bool :=
  match exec r s with Some _ => true | None => false end.

(** [s.match(r)?.[1]] *)
Definition match1 (r : regex) (s : jsstring) : option jsstring :=
  match exec r s with
  | Some m => group1 m
  | None => None
  end.

End RegExp.

Import RegExp.

(** ** [src/constants.ts] *)

Definition CBE_VERIFICATION_BASE_URL : jsstring := js "https://apps.cbe.com.et:100".

(** [/FT[a-zA-Z0-9]{10}/] *)
Definition TRANSACTION_REFERENCE_REGEX : regex :=
  cat [lit "FT"; rep 10 alnum].

(** [/https:\/\/apps.cbe.com.et:100\/\?id=FT[a-zA-Z0-9]{18}/] *)
Definition TRANSACTION_URL_REGEX : regex :=
  cat [lit "https://apps"; dot; lit "cbe"; dot; lit "com"; dot;
       lit "et:100/?id=FT"; rep 18 alnum].

Definition DEFAULT_MAX_TRANSACTION_AGE_HOURS : Q := 24.

Module PDF_EXTRACTION_PATTERNS.

(** [/Reference No\. \(VAT Invoice No\)\s*(.+)/] *)
Definition REFERENCE_NUMBER : regex :=
  cat [lit "Reference No. (VAT Invoice No)"; Star space; Group (plus dot)].

(** [/Payment Date & Time\s*(\d{1,2}\/\d{1,2}\/\d{4}, \d{1,2}:\d{2}:\d{2} (?:AM|PM))/] *)
Definition PAYMENT_DATE_TIME : regex :=
  cat [lit "Payment Date & Time"; Star space;
       Group (cat [rep_1_2 digit; lit "/"; rep_1_2 digit; lit "/"; rep 4 digit;
                   lit ", "; rep_1_2 digit; lit ":"; rep 2 digit; lit ":";
                   rep 2 digit; lit " "; Alt (lit "AM") (lit "PM")])].

(** [/Total amount debited from customers account\s*([\d,.]+\s*ETB)/] *)
Definition TOTAL_AMOUNT : regex :=
  cat [lit "Total amount debited from customers account"; Star space;
       Group (cat [plus (Cls is_amount_char); Star space; lit "ETB"])].

(** [/Receiver\s*(.+)/] *)
Definition RECEIVER : regex :=
  cat [lit "Receiver"; Star space; Group (plus dot)].

(** [/Payer\s*(.+)/] *)
Definition PAYER : regex :=
  cat [lit "Payer"; Star space; Group (plus dot)].

End PDF_EXTRACTION_PATTERNS.

(** ** Runtime values, errors and the host *)

(** The values a caller can pass where the signature says [string]. *)
Inductive JSValue : Type :=
| VUndefined : JSValue
| VNull : JSValue
| VBoolean : bool -> JSValue
| VNumber : Z -> JSValue
| VString : jsstring -> JSValue
| VObject : JSValue.

(** [!!v] *)
Definition to_boolean (v : JSValue) : bool :=
  match v with
  | VUndefined | VNull => false
  | VBoolean b => b
  | VNumber n => negb (Z.eqb n 0)
  | VString s => truthy s
  | VObject => true
  end.

(** [typeof v === 'string'] *)
Definition is_string (v : JSValue) : bool :=
  match v with VString _ => true | _ => false end.

(** The string held by a value that passed the [typeof] check. *)
Definition string_of (v : JSValue) : jsstring :=
  match v with VString s => s | _ => [] end.

(** A [Date] holds a time value: milliseconds since the epoch, or NaN
    (an "Invalid Date"). *)
Inductive Date : Type :=
| ValidDate : Z -> Date
| InvalidDate : Date.

(** The [Error] objects of the pipeline, one constructor per message. *)
Inductive error : Type :=
| EmptyInput : error                  (* 'Input must be a non-empty string' *)
| InvalidInputFormat : error          (* 'Invalid transaction reference number or URL format' *)
| MissingAccountNumber : error        (* 'CBE account number is required for verification' *)
| UnableToConstructUrl : error        (* 'Unable to construct PDF URL from input' *)
| MissingReferenceNumber : error      (* 'Transaction reference number not found in the PDF' *)
| MissingPaymentTimestamp : error     (* 'Payment date and time not found in the PDF' *)
| TransactionTooOld : Q -> Z -> error (* 'Transaction is older than <max> hours (<diff> hours old), cannot verify' *)
| DocumentRetrievalFailed : jsstring -> error. (* raised by the PDF extractor *)

Inductive result (A : Type) : Type :=
| Ok : A -> result A
| Throw : error -> result A.

Arguments Ok {A} _.
Arguments Throw {A} _.

(** ** [src/types.ts] *)

Record TransactionDetails : Type := {
  transactionRefNumber : option jsstring;
  paymentDateTime : option Date;
  totalAmountDebited : option jsstring;
  receiver : option jsstring;
  payer : option jsstring
}.

(** Finite numbers are rationals; an optional property is an [option]. *)
Record PaymentVerificationConfig : Type := {
  cbeAccountNumber : jsstring;
  maxTransactionAgeHours : option Q;
  rejectUnauthorized : option bool
}.

(** What the code takes from its environment: the clock read by
    [dayjs()]; the [Date] constructor on a string, whose result is left to
    the engine for strings that are not in the ISO format; and
    [extractTextFromPdfUrl] of [src/pdf-extractor.ts], which downloads the
    receipt and decodes the PDF, and throws an [Error] when either fails. *)
Record Host : Type := {
  clock : Z;
  Date_parse : jsstring -> Date;
  extractTextFromPdfUrl : jsstring -> PaymentVerificationConfig -> result jsstring
}.

(** ** [src/transaction-parser.ts] *)

Definition MILLISECONDS_A_HOUR : Z := 3600000.

(** [dayjs(now).diff(dayjs(d), 'hour')]: the difference in milliseconds
    over the milliseconds of an hour, truncated toward zero; [None] is
    NaN. *)
Definition dayjs_diff_hour (now : Z) (d : Date) : option Z :=
  match d with
  | ValidDate t => Some (Z.quot (now - t) MILLISECONDS_A_HOUR)
  | InvalidDate => None
  end.

(** [hoursDiff > maxAgeHours]; a comparison with NaN is false. *)
Definition exceeds (hoursDiff : option Z) (maxAgeHours : Q) : bool :=
  match hoursDiff with
  | Some h => negb (Qle_bool (inject_Z h) maxAgeHours)
  | None => false
  end.

Definition validateTransactionAge (h : Host) (paymentDateTime : Date)
           (maxAgeHours : Q) : result unit :=
  let hoursDiff := dayjs_diff_hour (clock h) paymentDateTime in
  if exceeds hoursDiff maxAgeHours then
    Throw (TransactionTooOld maxAgeHours
             (match hoursDiff with Some d => d | None => 0%Z end))
  else Ok tt.

Definition extractReferenceNumber (text : jsstring) : option jsstring :=
  or_null (option_map trim (match1 PDF_EXTRACTION_PATTERNS.REFERENCE_NUMBER text)).

(** [new Date(...)] does not throw, so the [catch] branch is never taken. *)
Definition extractPaymentDateTime (h : Host) (text : jsstring) : option Date :=
  match match1 PDF_EXTRACTION_PATTERNS.PAYMENT_DATE_TIME text with
  | Some m1 => if truthy m1 then Some (Date_parse h (trim m1)) else None
  | None => None
  end.

Definition extractTotalAmount (text : jsstring) : option jsstring :=
  or_null (option_map trim (match1 PDF_EXTRACTION_PATTERNS.TOTAL_AMOUNT text)).

Definition extractReceiver (text : jsstring) : option jsstring :=
  or_null (option_map trim (match1 PDF_EXTRACTION_PATTERNS.RECEIVER text)).

Definition extractPayer (text : jsstring) : option jsstring :=
  or_null (option_map trim (match1 PDF_EXTRACTION_PATTERNS.PAYER text)).

(** The object literal at the head of [extractTransactionDetails]. *)
Definition extractedDetails (h : Host) (text : jsstring) : TransactionDetails :=
  {| transactionRefNumber := extractReferenceNumber text;
     paymentDateTime := extractPaymentDateTime h text;
     totalAmountDebited := extractTotalAmount text;
     receiver := extractReceiver text;
     payer := extractPayer text |}.

Definition extractTransactionDetails (h : Host) (text : jsstring)
           (config : PaymentVerificationConfig) : result TransactionDetails :=
  let details := extractedDetails h text in
  match transactionRefNumber details with
  | None => Throw MissingReferenceNumber
  | Some ref =>
      if negb (truthy ref) then Throw MissingReferenceNumber
      else
        match paymentDateTime details with
        | None => Throw MissingPaymentTimestamp
        | Some d =>
            let maxAge :=
              match maxTransactionAgeHours config with
              | Some m => m
              | None => DEFAULT_MAX_TRANSACTION_AGE_HOURS
              end in
            match validateTransactionAge h d maxAge with
            | Throw e => Throw e
            | Ok _ => Ok details
            end
        end
  end.

(** ** [src/payment-verifier.ts] *)

Definition validateInput (input : JSValue) : result unit :=
  if (negb (to_boolean input) || negb (is_string input))%bool then Throw EmptyInput
  else
    let isValidRef := test TRANSACTION_REFERENCE_REGEX (string_of input) in
    let isValidUrl := test TRANSACTION_URL_REGEX (string_of input) in
    if (negb isValidRef && negb isValidUrl)%bool then Throw InvalidInputFormat
    else Ok tt.

Definition constructPdfUrl (input cbeAccountNumber : jsstring) : result jsstring :=
  if test TRANSACTION_URL_REGEX input then
    Ok (slice input 0 (Some (-8)%Z) ++ slice cbeAccountNumber (-8) None)
  else if test TRANSACTION_REFERENCE_REGEX input then
    Ok (CBE_VERIFICATION_BASE_URL ++ js "/?id=" ++ input
        ++ slice cbeAccountNumber (-8) None)
  else Throw UnableToConstructUrl.

(** A call of the PDF extractor: the URL and the configuration passed. *)
Definition request : Type := (jsstring * PaymentVerificationConfig)%type.

(** Computations that may throw and that record, in order, the calls made
    to the PDF extractor. *)
Definition Eff (A : Type) : Type := list request -> result A * list request.

Definition ret {A} (a : A) : Eff A := fun log => (Ok a, log).
Definition throw {A} (e : error) : Eff A := fun log => (Throw e, log).
Definition lift {A} (r : result A) : Eff A := fun log => (r, log).
Definition bind {A B} (m : Eff A) (k : A -> Eff B) : Eff B :=
  fun log =>
    match m log with
    | (Ok a, log') => k a log'
    | (Throw e, log') => (Throw e, log')
    end.

Notation "x <- m ;; k" := (bind m (fun x => k))
  (at level 61, m at next level, right associativity).

(** [await extractTextFromPdfUrl(url, config)] *)
Definition await_extractTextFromPdfUrl (h : Host) (url : jsstring)
           (config : PaymentVerificationConfig) : Eff jsstring :=
  fun log => (extractTextFromPdfUrl h url config, log ++ [(url, config)]).

(** [try { body } catch (error) { if (error instanceof Error) throw error; ... }]:
    every value thrown in the body is an [Error], which is thrown again. *)
Definition rethrow {A} (body : Eff A) : Eff A :=
  fun log =>
    match body log with
    | (Ok a, log') => (Ok a, log')
    | (Throw e, log') => (Throw e, log')
    end.

Definition verifyDirectDeposit (h : Host) (transactionRefNumberOrUrl : JSValue)
           (config : PaymentVerificationConfig) : Eff TransactionDetails :=
  _ <- lift (validateInput transactionRefNumberOrUrl) ;;
  if negb (truthy (cbeAccountNumber config)) then throw MissingAccountNumber
  else
    rethrow
      (pdfUrl <- lift (constructPdfUrl (string_of transactionRefNumberOrUrl)
                                       (cbeAccountNumber config)) ;;
       pdfText <- await_extractTextFromPdfUrl h pdfUrl config ;;
       transactionDetails <- lift (extractTransactionDetails h pdfText config) ;;
       ret transactionDetails).

(** ** A host to run the pipeline on *)

Module SampleHost.

Definition option_bind {A B} (o : option A) (k : A -> option B) : option B :=
  match o with Some a => k a | None => None end.

Notation "'let?' x := o 'in' k" := (option_bind o (fun x => k))
  (at level 10, x pattern, o at level 100, k at level 200).

(** Reads a decimal number: a non-empty run of digits. *)
Fixpoint read_digits (acc : Z) (seen : bool) (s : jsstring) : option (Z * jsstring) :=
  match s with
  | c :: s' =>
      if is_digit c then read_digits (acc * 10 + (Z.of_N c - 48)) true s'
      else if seen then Some (acc, s) else None
  | [] => if seen then Some (acc, s) else None
  end.

Definition read_number (s : jsstring) : option (Z * jsstring) := read_digits 0 false s.

Fixpoint strip_prefix (p s : jsstring) : option jsstring :=
  match p, s with
  | [], _ => Some s
  | a :: p', b :: s' => if N.eqb a b then strip_prefix p' s' else None
  | _ :: _, [] => None
  end.

(** Days from the epoch to a civil date of the proleptic Gregorian calendar. *)
Definition days_from_civil (y m d : Z) : Z :=
  let y' := if (m <=? 2)%Z then (y - 1)%Z else y in
  let era := (y' / 400)%Z in
  let yoe := (y' - era * 400)%Z in
  let mp := if (2 <? m)%Z then (m - 3)%Z else (m + 9)%Z in
  let doy := ((153 * mp + 2) / 5 + d - 1)%Z in
  let doe := (yoe * 365 + yoe / 4 - yoe / 100 + doy)%Z in
  (era * 146097 + doe - 719468)%Z.

Definition between (lo x hi : Z) : bool := ((lo <=? x) && (x <=? hi))%Z.

(** [new Date(s)] for the receipt format [M/D/YYYY, h:mm:ss AM|PM], read
    in a local time zone that is UTC.  A month outside 1-12, a day outside
    1-31, an hour outside 0-12, a minute or second outside 0-59, or any
    other text, gives an Invalid Date. *)
Definition parse_receipt_date (s : jsstring) : Date :=
  let parsed :=
    let? (mo, s) := read_number s in
    let? s := strip_prefix (js "/") s in
    let? (d, s) := read_number s in
    let? s := strip_prefix (js "/") s in
    let? (y, s) := read_number s in
    let? s := strip_prefix (js ", ") s in
    let? (hh, s) := read_number s in
    let? s := strip_prefix (js ":") s in
    let? (mi, s) := read_number s in
    let? s := strip_prefix (js ":") s in
    let? (ss, s) := read_number s in
    let? s := strip_prefix (js " ") s in
    let? offset :=
      match strip_prefix (js "AM") s, strip_prefix (js "PM") s with
      | Some [], _ => Some 0%Z
      | _, Some [] => Some 12%Z
      | _, _ => None
      end in
    if (between 1 mo 12 && between 1 d 31 && between 0 hh 12
        && between 0 mi 59 && between 0 ss 59)%bool
    then Some ((days_from_civil y mo d * 86400000
                + ((hh mod 12 + offset) * 3600 + mi * 60 + ss) * 1000)%Z)
    else None
  in
  match parsed with
  | Some t => ValidDate t
  | None => InvalidDate
  end.

(** A receipt issued on 12/25/2023 at 2:30:45 PM. *)
Definition receipt_text : jsstring :=
  js "Reference No. (VAT Invoice No)   FT25200VMC5N"
  ++ [10%N] ++ js "Payment Date & Time 12/25/2023, 2:30:45 PM"
  ++ [10%N] ++ js "Total amount debited from customers account 1,500.00 ETB"
  ++ [10%N] ++ js "Receiver ACME Corporation Ltd"
  ++ [10%N] ++ js "Payer John Doe".

(** The clock reads 12/25/2023, 3:00:00 PM and every download yields
    [receipt_text]. *)
Definition host : Host :=
  {| clock := 1703516400000;
     Date_parse := parse_receipt_date;
     extractTextFromPdfUrl := fun _ _ => Ok receipt_text |}.

Definition config : PaymentVerificationConfig :=
  {| cbeAccountNumber := js "1000188961473";
     maxTransactionAgeHours := Some 24;
     rejectUnauthorized := Some false |}.

End SampleHost.

(** ** What a pattern matches *)

(** [matches r c w c']: the pattern [r] can consume exactly [w], turning
    the capture [c] into [c']. *)
Inductive matches : regex -> option jsstring -> jsstring -> option jsstring -> Prop :=
| M_Eps : forall c, matches Eps c [] c
| M_Cls : forall (p : N -> bool) a c, p a = true -> matches (Cls p) c [a] c
| M_Seq : forall r1 r2 c c' c'' w1 w2,
    matches r1 c w1 c' -> matches r2 c' w2 c'' ->
    matches (Seq r1 r2) c (w1 ++ w2) c''
| M_AltL : forall r1 r2 c c' w, matches r1 c w c' -> matches (Alt r1 r2) c w c'
| M_AltR : forall r1 r2 c c' w, matches r2 c w c' -> matches (Alt r1 r2) c w c'
| M_StarNil : forall r c, matches (Star r) c [] c
| M_StarCons : forall r c c' c'' w1 w2,
    w1 <> [] -> matches r c w1 c' -> matches (Star r) c' w2 c'' ->
    matches (Star r) c (w1 ++ w2) c''
| M_Group : forall r c c' w, matches r c w c' -> matches (Group r) c w (Some w).

(** ** The vocabulary of the properties *)

(** The text before the 18 alphanumerics of a receipt URL; [x], [y] and
    [z] stand where the pattern has its three unescaped dots. *)
Definition url_head (x y z : N) : jsstring :=
  js "https://apps" ++ [x] ++ js "cbe" ++ [y] ++ js "com" ++ [z] ++ js "et:100/?id=FT".

Definition url_text (x y z : N) (t : jsstring) : jsstring := url_head x y z ++ t.

Definition last_chars (n : nat) (s : jsstring) : jsstring :=
  skipn (List.length s - n) s.

Definition without_last (n : nat) (s : jsstring) : jsstring :=
  firstn (List.length s - n) s.

(** [age] is the number of whole hours in [d] milliseconds, partial hours
    dropped. *)
Definition whole_hours (d age : Z) : Prop :=
  ((0 <= d -> age * 3600000 <= d < (age + 1) * 3600000)
   /\ (d <= 0 -> (age - 1) * 3600000 < d <= age * 3600000))%Z.

(** The URL shape in the words of the specification: the whole string is
    the base URL, the query key, the two-letter prefix and exactly 18
    alphanumeric characters. *)
Definition conforms_to_url_shape (s : jsstring) : Prop :=
  exists t,
    s = CBE_VERIFICATION_BASE_URL ++ js "/?id=" ++ js "FT" ++ t /\
    List.length t = 18%nat /\ forallb is_alnum t = true.

(** The shape shared by the five patterns: a label, [\s*] and a group. *)
Definition labelled (label : String.string) (g : regex) : regex :=
  cat [lit label; Star space; Group g].

Definition occurs (label text : jsstring) : Prop :=
  exists pre post, text = pre ++ label ++ post.

(** [capture] stands in [text] after an occurrence of [label] and a run
    of white space, line breaks included; [post] is the text after it. *)
Definition follows_label (label text capture post : jsstring) : Prop :=
  exists pre ws,
    text = pre ++ label ++ ws ++ capture ++ post /\ forallb is_space ws = true.

Definition at_line_end (post : jsstring) : Prop :=
  post = [] \/ exists a post', post = a :: post' /\ is_line_terminator a = true.

(** The format [M/D/YYYY, h:mm:ss AM|PM] of the payment date. *)
Definition digits (lo hi : nat) (s : jsstring) : Prop :=
  (lo <= List.length s <= hi)%nat /\ forallb is_digit s = true.

Definition receipt_date_format (c : jsstring) : Prop :=
  exists mo d y hh mi ss ap,
    c = mo ++ js "/" ++ d ++ js "/" ++ y ++ js ", "
        ++ hh ++ js ":" ++ mi ++ js ":" ++ ss ++ js " " ++ ap /\
    digits 1 2 mo /\ digits 1 2 d /\ digits 4 4 y /\
    digits 1 2 hh /\ digits 2 2 mi /\ digits 2 2 ss /\
    (ap = js "AM" \/ ap = js "PM").

(** The format of the amount: digits, commas and points, white space, [ETB]. *)
Definition receipt_amount_format (c : jsstring) : Prop :=
  exists num ws,
    c = num ++ ws ++ js "ETB" /\
    num <> [] /\ forallb is_amount_char num = true /\ forallb is_space ws = true.

(** A string with something at each end that is not white space. *)
Definition trimmed (v : jsstring) : Prop :=
  v <> [] /\
  (forall a, hd_error v = Some a -> is_space a = false) /\
  (forall a, hd_error (rev v) = Some a -> is_space a = false).

Definition absent_or_trimmed (o : option jsstring) : Prop :=
  match o with
  | None => True
  | Some v => trimmed v
  end.

Fixpoint starts_with (p s : jsstring) : bool :=
  match p, s with
  | [], _ => true
  | a :: p', b :: s' => (N.eqb a b && starts_with p' s')%bool
  | _ :: _, [] => false
  end.

Fixpoint occurs_in (p s : jsstring) : bool :=
  (starts_with p s
   || match s with
      | [] => false
      | _ :: s' => occurs_in p s'
      end)%bool.

(** The characters from the start of [s] up to the first line terminator. *)
Fixpoint rest_of_line (s : jsstring) : jsstring :=
  match s with
  | [] => []
  | c :: s' => if is_line_terminator c then [] else c :: rest_of_line s'
  end.

(** In the words of the specification: [capture] lies in the remainder of
    a line of [text] on which [label] occurs. *)
Fixpoint confined_to_label_line (label capture text : jsstring) : bool :=
  ((starts_with label text
    && occurs_in capture (rest_of_line (skipn (List.length label) text)))
   || match text with
      | [] => false
      | _ :: text' => confined_to_label_line label capture text'
      end)%bool.

Definition REFERENCE_LABEL : jsstring := js "Reference No. (VAT Invoice No)".
Definition DATE_LABEL : jsstring := js "Payment Date & Time".
Definition AMOUNT_LABEL : jsstring := js "Total amount debited from customers account".
Definition RECEIVER_LABEL : jsstring := js "Receiver".
Definition PAYER_LABEL : jsstring := js "Payer".

(** A capture by [(.+)]. *)
Definition line_capture (label text c : jsstring) : Prop :=
  c <> [] /\ forallb is_dot c = true /\
  exists post, follows_label label text c post /\ at_line_end post.

(** The four string fields of a record. *)
Definition strings_trimmed (d : TransactionDetails) : Prop :=
  absent_or_trimmed (transactionRefNumber d) /\
  absent_or_trimmed (totalAmountDebited d) /\
  absent_or_trimmed (receiver d) /\
  absent_or_trimmed (payer d).

(** ** The rest of [src/payment-verifier.ts] *)

(** [/^r$/.test(s)]: without the [m] flag [^] holds at the start of the
    input only and [$] at its end only, so [r] has to consume all of [s]. *)
Definition test_anchored (r : regex) (s : jsstring) : bool :=
  existsb (fun st : state => match snd st with [] => true | _ :: _ => false end)
          (run r None s).

(** [typeof accountNumber === 'string' && accountNumber.length >= 8 &&
    /^\d+$/.test(accountNumber)] *)
Definition isValidCbeAccountNumber (accountNumber : JSValue) : bool :=
  (is_string accountNumber
   && Nat.leb 8 (List.length (string_of accountNumber))
   && test_anchored (plus digit) (string_of accountNumber))%bool.

(** A [Partial<PaymentVerificationConfig>]: each property is absent
    ([None]) or present, and a present property may hold [undefined]
    ([Some None]). *)
Record ConfigOverrides : Type := {
  override_cbeAccountNumber : option (option jsstring);
  override_maxTransactionAgeHours : option (option Q);
  override_rejectUnauthorized : option (option bool)
}.

(** [{}] *)
Definition no_overrides : ConfigOverrides :=
  {| override_cbeAccountNumber := None;
     override_maxTransactionAgeHours := None;
     override_rejectUnauthorized := None |}.

(** The object that [createDefaultConfig] returns.  The spread can put
    [undefined] in any property, the account number included, whatever
    the declared type says. *)
Record ConfigObject : Type := {
  object_cbeAccountNumber : option jsstring;
  object_maxTransactionAgeHours : option Q;
  object_rejectUnauthorized : option bool
}.

(** [{ cbeAccountNumber, maxTransactionAgeHours: DEFAULT..., rejectUnauthorized:
    false, ...overrides }]: a property present in [overrides] replaces the
    one written before the spread. *)
Definition createDefaultConfig (cbeAccountNumber : jsstring)
           (overrides : ConfigOverrides) : ConfigObject :=
  {| object_cbeAccountNumber :=
       match override_cbeAccountNumber overrides with
       | Some a => a
       | None => Some cbeAccountNumber
       end;
     object_maxTransactionAgeHours :=
       match override_maxTransactionAgeHours overrides with
       | Some m => m
       | None => Some DEFAULT_MAX_TRANSACTION_AGE_HOURS
       end;
     object_rejectUnauthorized :=
       match override_rejectUnauthorized overrides with
       | Some b => b
       | None => Some false
       end |}.

(** [verifyDirectDeposit] called on such an object.  With an account
    number that is a string it is [verifyDirectDeposit] on that
    configuration; with [undefined], [validateInput] runs,
    [!config.cbeAccountNumber] holds and the missing-account error is
    thrown. *)
Definition verifyDirectDeposit_on (h : Host) (transactionRefNumberOrUrl : JSValue)
           (config : ConfigObject) : Eff TransactionDetails :=
  match object_cbeAccountNumber config with
  | Some a =>
      verifyDirectDeposit h transactionRefNumberOrUrl
        {| cbeAccountNumber := a;
           maxTransactionAgeHours := object_maxTransactionAgeHours config;
           rejectUnauthorized := object_rejectUnauthorized config |}
  | None =>
      _ <- lift (validateInput transactionRefNumberOrUrl) ;;
      throw MissingAccountNumber
  end.

Definition verifyPayment (h : Host) (transactionRefNumberOrUrl : JSValue)
           (cbeAccountNumber : jsstring) (options : ConfigOverrides)
  : Eff TransactionDetails :=
  let config := createDefaultConfig cbeAccountNumber options in
  verifyDirectDeposit_on h transactionRefNumberOrUrl config.

(** ** More vocabulary *)

(** [s.indexOf(p)]: where [p] first occurs in [s]. *)
Fixpoint index_of (p s : jsstring) : option nat :=
  if starts_with p s then Some 0%nat
  else match s with
       | [] => None
       | _ :: s' => option_map S (index_of p s')
       end.

(** White space that does not end the line. *)
Definition is_blank (c : N) : bool := (is_space c && is_dot c)%bool.

(** [val] is written in [text] after the first occurrence of [label]:
    white space, then [val], which has no white space at its ends and no
    line terminator, then blanks up to the end of the line. *)
Definition labelled_value (label text val : jsstring) : Prop :=
  exists pre ws1 ws2 post,
    text = pre ++ label ++ ws1 ++ val ++ ws2 ++ post /\
    index_of label text = Some (List.length pre) /\
    forallb is_space ws1 = true /\
    trimmed val /\ forallb is_dot val = true /\
    forallb is_blank ws2 = true /\
    at_line_end post.

(** The age limit that [extractTransactionDetails] applies. *)
Definition effective_max_age (config : PaymentVerificationConfig) : Q :=
  match maxTransactionAgeHours config with
  | Some m => m
  | None => DEFAULT_MAX_TRANSACTION_AGE_HOURS
  end.

(** [st] is the first state, in priority order, that [r] reaches on [s]. *)
Definition first_state (r : regex) (c : option jsstring) (s : jsstring)
           (st : state) : Prop :=
  exists l, run r c s = st :: l.

(** What stops a greedy run of the class [p]. *)
Definition stops (p : N -> bool) (rest : jsstring) : Prop :=
  match rest with
  | [] => True
  | x :: _ => p x = false
  end.

(** What the options of [verifyPayment] come to: the account number in
    force ([None] when the options hold it as [undefined]), the age limit
    and the configuration that goes with an account number. *)
Definition options_account (cbeAccountNumber : jsstring)
           (options : ConfigOverrides) : option jsstring :=
  match override_cbeAccountNumber options with
  | Some a => a
  | None => Some cbeAccountNumber
  end.

Definition options_max_age (options : ConfigOverrides) : Q :=
  match override_maxTransactionAgeHours options with
  | Some (Some m) => m
  | Some None => 24
  | None => 24
  end.

Definition options_config (a : jsstring) (options : ConfigOverrides)
  : PaymentVerificationConfig :=
  {| cbeAccountNumber := a;
     maxTransactionAgeHours :=
       match override_maxTransactionAgeHours options with
       | Some m => m
       | None => Some 24
       end;
     rejectUnauthorized :=
       match override_rejectUnauthorized options with
       | Some b => b
       | None => Some false
       end |}.

(** * Properties *)

(** ** The cases of the test suite *)

(** Cases of [test/constants.test.ts]. *)
Example reference_regex_matches :
  test TRANSACTION_REFERENCE_REGEX (js "FT25200VMC5N") = true.
Proof. vm_compute. reflexivity. Qed.

Example reference_regex_rejects :
  List.map (test TRANSACTION_REFERENCE_REGEX)
           [js "abc-123"; js "ref 123"; js ""; js "ref@123"]
  = [false; false; false; false].
Proof. vm_compute. reflexivity. Qed.

Example url_regex_matches :
  test TRANSACTION_URL_REGEX (js "https://apps.cbe.com.et:100/?id=FT25200VMC5G56280011") = true.
Proof. vm_compute. reflexivity. Qed.

Example url_regex_rejects :
  List.map (test TRANSACTION_URL_REGEX)
           [js "https://example.com"; js "not-a-url"; js "ftp://example.com"; js ""]
  = [false; false; false; false].
Proof. vm_compute. reflexivity. Qed.

Example reference_pattern_captures :
  match1 PDF_EXTRACTION_PATTERNS.REFERENCE_NUMBER
         (js "Reference No. (VAT Invoice No)   ABC123456")
  = Some (js "ABC123456").
Proof. vm_compute. reflexivity. Qed.

Example date_pattern_captures :
  match1 PDF_EXTRACTION_PATTERNS.PAYMENT_DATE_TIME
         (js "Payment Date & Time 12/25/2023, 2:30:45 PM")
  = Some (js "12/25/2023, 2:30:45 PM").
Proof. vm_compute. reflexivity. Qed.

Example amount_pattern_captures :
  match1 PDF_EXTRACTION_PATTERNS.TOTAL_AMOUNT
         (js "Total amount debited from customers account 1,500.00 ETB")
  = Some (js "1,500.00 ETB").
Proof. vm_compute. reflexivity. Qed.

Example receiver_pattern_captures :
  match1 PDF_EXTRACTION_PATTERNS.RECEIVER (js "Receiver John Doe Company")
  = Some (js "John Doe Company").
Proof. vm_compute. reflexivity. Qed.

Example payer_pattern_captures :
  match1 PDF_EXTRACTION_PATTERNS.PAYER (js "Payer Jane Smith")
  = Some (js "Jane Smith").
Proof. vm_compute. reflexivity. Qed.

(** ** The matcher against [matches] *)

Lemma firstn_app_exact (w rest : jsstring) :
  firstn (List.length (w ++ rest) - List.length rest) (w ++ rest) = w.
Proof.
  rewrite length_app.
  replace (List.length w + List.length rest - List.length rest)%nat
    with (List.length w + 0)%nat by lia.
  rewrite firstn_app_2. simpl. apply app_nil_r.
Qed.

Lemma star_loop_sound (body : option jsstring -> jsstring -> list state) (r : regex) :
  (forall c s c' rest, In (c', rest) (body c s) ->
                       exists w, s = w ++ rest /\ matches r c w c') ->
  forall fuel c s c' rest,
    In (c', rest) (star_loop body fuel c s) ->
    exists w, s = w ++ rest /\ matches (Star r) c w c'.
Proof.
  intros Hbody. induction fuel as [|fuel IH]; intros c s c' rest Hin; simpl in Hin.
  - destruct Hin as [Heq|[]]. inversion Heq; subst.
    exists []. split; [reflexivity|constructor].
  - apply in_app_or in Hin. destruct Hin as [Hin|[Heq|[]]].
    + apply in_flat_map in Hin. destruct Hin as [[c1 s1] [Hin1 Hin2]]. simpl in Hin2.
      destruct (Nat.ltb (List.length s1) (List.length s)) eqn:Hlt; [|contradiction].
      apply Hbody in Hin1. destruct Hin1 as [w1 [Hs Hm1]].
      apply IH in Hin2. destruct Hin2 as [w2 [Hs1 Hm2]].
      exists (w1 ++ w2). subst. split.
      * now rewrite app_assoc.
      * apply M_StarCons with (c' := c1); auto.
        intros ->. simpl in Hlt. apply Nat.ltb_lt in Hlt. lia.
    + inversion Heq; subst. exists []. split; [reflexivity|constructor].
Qed.

(** Every state the matcher returns is a match of a prefix. *)
Lemma run_sound (r : regex) :
  forall c s c' rest,
    In (c', rest) (run r c s) -> exists w, s = w ++ rest /\ matches r c w c'.
Proof.
  induction r as [|p|a IHa b IHb|a IHa b IHb|a IHa|a IHa]; intros c s c' rest Hin;
    simpl in Hin.
  - destruct Hin as [Heq|[]]. inversion Heq; subst.
    exists []. split; [reflexivity|constructor].
  - destruct s as [|x s]; [contradiction|].
    destruct (p x) eqn:Hp; [|contradiction].
    destruct Hin as [Heq|[]]. inversion Heq; subst.
    exists [x]. split; [reflexivity|now constructor].
  - apply in_flat_map in Hin. destruct Hin as [[c1 s1] [Hin1 Hin2]]. simpl in Hin2.
    apply IHa in Hin1. destruct Hin1 as [w1 [Hs Hm1]].
    apply IHb in Hin2. destruct Hin2 as [w2 [Hs1 Hm2]].
    exists (w1 ++ w2). subst. split; [now rewrite app_assoc|].
    econstructor; eauto.
  - apply in_app_or in Hin. destruct Hin as [Hin|Hin].
    + apply IHa in Hin. destruct Hin as [w [Hs Hm]]. exists w. split; auto.
      now apply M_AltL.
    + apply IHb in Hin. destruct Hin as [w [Hs Hm]]. exists w. split; auto.
      now apply M_AltR.
  - eapply star_loop_sound; eauto.
  - apply in_map_iff in Hin. destruct Hin as [[c1 s1] [Heq Hin]].
    simpl in Heq. inversion Heq; subst.
    apply IHa in Hin. destruct Hin as [w [Hs Hm]]. subst.
    exists w. split; [reflexivity|].
    rewrite firstn_app_exact. econstructor; eauto.
Qed.

Lemma star_loop_fuel (body : option jsstring -> jsstring -> list state) :
  forall fuel c s,
    (List.length s <= fuel)%nat ->
    star_loop body fuel c s = star_loop body (List.length s) c s.
Proof.
  induction fuel as [fuel IH] using lt_wf_ind. intros c s Hle.
  destruct fuel as [|fuel].
  - destruct s; simpl in Hle; [reflexivity|lia].
  - destruct s as [|x s].
    + simpl. f_equal.
      induction (body c []) as [|st l IHl]; simpl; auto.
    + simpl. f_equal. apply flat_map_ext. intros [c1 s1]. simpl.
      destruct (Nat.ltb (List.length s1) (S (List.length s))) eqn:Hlt; [|reflexivity].
      apply Nat.ltb_lt in Hlt. simpl in Hle.
      rewrite (IH fuel) by lia.
      rewrite (IH (List.length s)) by lia.
      reflexivity.
Qed.

(** Every match of a prefix is among the states the matcher returns. *)
Lemma run_complete (r : regex) c w c' :
  matches r c w c' -> forall rest, In (c', rest) (run r c (w ++ rest)).
Proof.
  induction 1 as [c|p a c Hp|r1 r2 c c1 c2 w1 w2 _ IH1 _ IH2
                  |r1 r2 c c1 w _ IH|r1 r2 c c1 w _ IH
                  |r c|r c c1 c2 w1 w2 Hne _ IH1 _ IH2|r c c1 w _ IH]; intros rest.
  - simpl. now left.
  - simpl. rewrite Hp. now left.
  - simpl. apply in_flat_map. exists (c1, w2 ++ rest). split.
    + rewrite <- app_assoc. apply IH1.
    + simpl. apply IH2.
  - simpl. apply in_or_app. left. apply IH.
  - simpl. apply in_or_app. right. apply IH.
  - simpl. destruct (List.length rest); simpl.
    + now left.
    + apply in_or_app. right. now left.
  - simpl. simpl in IH2.
    destruct w1 as [|x w1]; [congruence|]. simpl.
    apply in_or_app. left. apply in_flat_map.
    exists (c1, w2 ++ rest). split.
    + specialize (IH1 (w2 ++ rest)). simpl in IH1.
      rewrite <- app_assoc. exact IH1.
    + simpl.
      assert (Hlen : (List.length (w2 ++ rest)
                      < S (List.length ((w1 ++ w2) ++ rest)))%nat).
      { rewrite !length_app. lia. }
      apply Nat.ltb_lt in Hlen. rewrite Hlen.
      rewrite star_loop_fuel by (rewrite !length_app; lia).
      apply IH2.
  - simpl. apply in_map_iff. exists (c1, rest). split.
    + simpl. now rewrite firstn_app_exact.
    + apply IH.
Qed.

Lemma run_head_sound (r : regex) (s : jsstring) (st : state) (l : list state) :
  run r None s = st :: l ->
  exists w,
    s = w ++ snd st /\ firstn (List.length s - List.length (snd st)) s = w /\
    matches r None w (fst st).
Proof.
  intros Hrun. destruct st as [c1 s1].
  assert (Hin : In (c1, s1) (run r None s)) by (rewrite Hrun; now left).
  apply run_sound in Hin. destruct Hin as [w [Hs Hm]].
  exists w. simpl. subst s. rewrite firstn_app_exact. auto.
Qed.

Lemma exec_from_eq (r : regex) (i : nat) (s : jsstring) :
  exec_from r i s =
  match run r None s with
  | st :: _ =>
      Some (MatchResult i (firstn (List.length s - List.length (snd st)) s) (fst st))
  | [] => match s with [] => None | _ :: s' => exec_from r (S i) s' end
  end.
Proof. destruct s; reflexivity. Qed.

(** [exec] finds a match iff some substring matches. *)
Lemma exec_from_some (r : regex) :
  forall s i m,
    exec_from r i s = Some m ->
    exists pre post c',
      s = pre ++ matched m ++ post /\ matches r None (matched m) c' /\
      group1 m = c' /\ index m = (i + List.length pre)%nat.
Proof.
  induction s as [|x s IH]; intros i m Hex; rewrite exec_from_eq in Hex;
    destruct (run r None _) as [|st l] eqn:Hrun.
  - discriminate.
  - apply run_head_sound in Hrun. destruct Hrun as [w [Hs [Hf Hm]]].
    rewrite Hf in Hex. inversion Hex; subst m; clear Hex. cbn [matched group1 index].
    exists [], (snd st), (fst st). simpl. repeat split; auto.
  - apply IH in Hex. destruct Hex as [pre [post [c' [Hs [Hm [Hg Hi]]]]]].
    exists (x :: pre), post, c'. simpl. rewrite Hs at 1.
    repeat split; auto. lia.
  - apply run_head_sound in Hrun. destruct Hrun as [w [Hs [Hf Hm]]].
    rewrite Hf in Hex. inversion Hex; subst m; clear Hex. cbn [matched group1 index].
    exists [], (snd st), (fst st). simpl. repeat split; auto.
Qed.

Lemma exec_from_none (r : regex) :
  forall s i,
    exec_from r i s = None ->
    forall pre w post c', s = pre ++ w ++ post -> ~ matches r None w c'.
Proof.
  induction s as [|x s IH]; intros i Hex pre w post c' Hs Hm;
    rewrite exec_from_eq in Hex;
    destruct (run r None _) as [|st l] eqn:Hrun; try discriminate.
  - destruct pre; [|discriminate]. simpl in Hs.
    apply run_complete with (rest := post) in Hm.
    rewrite <- Hs, Hrun in Hm. contradiction.
  - destruct pre as [|y pre].
    + simpl in Hs. apply run_complete with (rest := post) in Hm.
      rewrite <- Hs, Hrun in Hm. contradiction.
    + simpl in Hs. inversion Hs; subst.
      eapply IH; eauto.
Qed.

Theorem test_true_iff (r : regex) (s : jsstring) :
  test r s = true <->
  exists pre w post c', s = pre ++ w ++ post /\ matches r None w c'.
Proof.
  unfold test, exec. split.
  - destruct (exec_from r 0 s) as [m|] eqn:Hex; [|discriminate]. intros _.
    apply exec_from_some in Hex. destruct Hex as [pre [post [c' [Hs [Hm _]]]]].
    exists pre, (matched m), post, c'. auto.
  - intros [pre [w [post [c' [Hs Hm]]]]].
    destruct (exec_from r 0 s) as [m|] eqn:Hex; [reflexivity|].
    exfalso. eapply exec_from_none; eauto.
Qed.

Lemma match1_some (r : regex) (s g : jsstring) :
  match1 r s = Some g ->
  exists pre w post, s = pre ++ w ++ post /\ matches r None w (Some g).
Proof.
  unfold match1, exec. destruct (exec_from r 0 s) as [m|] eqn:Hex; [|discriminate].
  intros Hg. apply exec_from_some in Hex.
  destruct Hex as [pre [post [c' [Hs [Hm [Hg' _]]]]]].
  exists pre, (matched m), post. split; auto. congruence.
Qed.

(** ** Inversion of [matches] on the pieces the patterns are made of *)

Lemma matches_Eps_iff c w c' : matches Eps c w c' <-> w = [] /\ c' = c.
Proof.
  split.
  - inversion 1; auto.
  - intros [-> ->]. constructor.
Qed.

Lemma matches_Cls_iff (p : N -> bool) c w c' :
  matches (Cls p) c w c' <-> exists a, w = [a] /\ p a = true /\ c' = c.
Proof.
  split.
  - inversion 1; subst. eauto.
  - intros [a [-> [Hp ->]]]. now constructor.
Qed.

Lemma matches_Seq_iff r1 r2 c w c'' :
  matches (Seq r1 r2) c w c'' <->
  exists w1 w2 c', w = w1 ++ w2 /\ matches r1 c w1 c' /\ matches r2 c' w2 c''.
Proof.
  split.
  - inversion 1; subst. eauto 6.
  - intros [w1 [w2 [c' [-> [H1 H2]]]]]. econstructor; eauto.
Qed.

Lemma matches_Alt_iff r1 r2 c w c' :
  matches (Alt r1 r2) c w c' <-> matches r1 c w c' \/ matches r2 c w c'.
Proof.
  split.
  - inversion 1; subst; auto.
  - intros [H|H]; [now apply M_AltL|now apply M_AltR].
Qed.

Lemma matches_Group_iff r c w c' :
  matches (Group r) c w c' <-> c' = Some w /\ exists c1, matches r c w c1.
Proof.
  split.
  - inversion 1; subst. eauto.
  - intros [-> [c1 H]]. econstructor; eauto.
Qed.

Lemma matches_chr_iff (a : N) c w c' :
  matches (chr a) c w c' <-> w = [a] /\ c' = c.
Proof.
  unfold chr. rewrite matches_Cls_iff. split.
  - intros [b [-> [Hb ->]]]. apply N.eqb_eq in Hb. now subst.
  - intros [-> ->]. exists a. repeat split. apply N.eqb_refl.
Qed.

Lemma matches_lit_list_iff (l : jsstring) c w c' :
  matches (lit_list l) c w c' <-> w = l /\ c' = c.
Proof.
  revert c w c'. induction l as [|a l IH]; intros c w c'; simpl.
  - apply matches_Eps_iff.
  - rewrite matches_Seq_iff. split.
    + intros [w1 [w2 [c1 [-> [H1 H2]]]]].
      apply matches_chr_iff in H1. destruct H1 as [-> ->].
      apply IH in H2. destruct H2 as [-> ->]. auto.
    + intros [-> ->]. exists [a], l, c. repeat split.
      * now apply matches_chr_iff.
      * now apply IH.
Qed.

Lemma matches_lit_iff (l : String.string) c w c' :
  matches (lit l) c w c' <-> w = js l /\ c' = c.
Proof. apply matches_lit_list_iff. Qed.

Lemma matches_rep_Cls_iff (p : N -> bool) (n : nat) c w c' :
  matches (rep n (Cls p)) c w c' <->
  List.length w = n /\ forallb p w = true /\ c' = c.
Proof.
  revert c w c'. induction n as [|n IH]; intros c w c'; simpl.
  - rewrite matches_Eps_iff. split.
    + intros [-> ->]. auto.
    + intros [Hl [_ ->]]. destruct w; [auto|discriminate].
  - rewrite matches_Seq_iff. split.
    + intros [w1 [w2 [c1 [-> [H1 H2]]]]].
      apply matches_Cls_iff in H1. destruct H1 as [a [-> [Hp ->]]].
      apply IH in H2. destruct H2 as [Hl [Hall ->]].
      simpl. rewrite Hp, Hall, Hl. auto.
    + intros [Hl [Hall ->]]. destruct w as [|a w]; [discriminate|].
      simpl in Hl, Hall. apply andb_true_iff in Hall. destruct Hall as [Hp Hall].
      exists [a], w, c. repeat split.
      * apply matches_Cls_iff. eauto.
      * apply IH. auto.
Qed.

Lemma matches_Star_Cls_iff (p : N -> bool) c w c' :
  matches (Star (Cls p)) c w c' <-> forallb p w = true /\ c' = c.
Proof.
  split.
  - remember (Star (Cls p)) as r eqn:Hr. intros H.
    induction H as [| | | | | |r0 c c1 c2 w1 w2 Hne H1 _ H2 IH2|];
      try discriminate; inversion Hr; subst.
    + auto.
    + apply matches_Cls_iff in H1. destruct H1 as [a [-> [Hp ->]]].
      destruct (IH2 eq_refl) as [Hall ->]. simpl. rewrite Hp, Hall. auto.
  - intros [Hall ->]. induction w as [|a w IH].
    + constructor.
    + simpl in Hall. apply andb_true_iff in Hall. destruct Hall as [Hp Hall].
      change (a :: w) with ([a] ++ w).
      apply M_StarCons with (c' := c); [discriminate| |auto].
      now constructor.
Qed.

Lemma matches_plus_Cls_iff (p : N -> bool) c w c' :
  matches (plus (Cls p)) c w c' <-> w <> [] /\ forallb p w = true /\ c' = c.
Proof.
  unfold plus. rewrite matches_Seq_iff. split.
  - intros [w1 [w2 [c1 [-> [H1 H2]]]]].
    apply matches_Cls_iff in H1. destruct H1 as [a [-> [Hp ->]]].
    apply matches_Star_Cls_iff in H2. destruct H2 as [Hall ->].
    simpl. rewrite Hp, Hall. repeat split. discriminate.
  - intros [Hne [Hall ->]]. destruct w as [|a w]; [congruence|].
    simpl in Hall. apply andb_true_iff in Hall. destruct Hall as [Hp Hall].
    exists [a], w, c. repeat split.
    + apply matches_Cls_iff. eauto.
    + apply matches_Star_Cls_iff. auto.
Qed.

(** [r{1,2}] on a class: one or two code units of the class. *)
Lemma matches_rep_1_2_Cls_iff (p : N -> bool) c w c' :
  matches (rep_1_2 (Cls p)) c w c' <->
  (1 <= List.length w <= 2)%nat /\ forallb p w = true /\ c' = c.
Proof.
  unfold rep_1_2, opt. rewrite matches_Seq_iff. split.
  - intros [w1 [w2 [c1 [-> [H1 H2]]]]].
    apply matches_Cls_iff in H1. destruct H1 as [a [-> [Hp ->]]].
    apply matches_Alt_iff in H2. destruct H2 as [H2|H2].
    + apply matches_Cls_iff in H2. destruct H2 as [b [-> [Hq ->]]].
      simpl. rewrite Hp, Hq. repeat split; lia.
    + apply matches_Eps_iff in H2. destruct H2 as [-> ->].
      simpl. rewrite Hp. repeat split; lia.
  - intros [Hl [Hall ->]].
    destruct w as [|a [|b [|x w]]]; simpl in Hl; try lia; simpl in Hall.
    + rewrite andb_true_r in Hall. exists [a], [], c. repeat split.
      * apply matches_Cls_iff. eauto.
      * apply M_AltR. constructor.
    + rewrite andb_true_r in Hall. apply andb_true_iff in Hall.
      destruct Hall as [Hp Hq]. exists [a], [b], c. repeat split.
      * apply matches_Cls_iff. eauto.
      * apply M_AltL. now constructor.
Qed.

(** ** The two classification patterns *)

Ltac split_seq H :=
  let w1 := fresh "w" in
  let w2 := fresh "w" in
  let c1 := fresh "c" in
  let H1 := fresh "Hm" in
  apply matches_Seq_iff in H; destruct H as (w1 & w2 & c1 & -> & H1 & H).

Ltac invert_pieces :=
  repeat match goal with
  | H : matches (lit _) _ _ _ |- _ =>
      apply matches_lit_iff in H; destruct H as [-> ->]
  | H : matches Eps _ _ _ |- _ =>
      apply matches_Eps_iff in H; destruct H as [-> ->]
  | H : matches dot _ _ _ |- _ =>
      apply matches_Cls_iff in H; destruct H as (? & -> & ? & ->)
  | H : matches (rep _ (Cls _)) _ _ _ |- _ =>
      apply matches_rep_Cls_iff in H; destruct H as (? & ? & ->)
  | H : matches (rep_1_2 (Cls _)) _ _ _ |- _ =>
      apply matches_rep_1_2_Cls_iff in H; destruct H as (? & ? & ->)
  | H : matches (Star (Cls _)) _ _ _ |- _ =>
      apply matches_Star_Cls_iff in H; destruct H as (? & ->)
  | H : matches (plus (Cls _)) _ _ _ |- _ =>
      apply matches_plus_Cls_iff in H; destruct H as (? & ? & ->)
  end.

Lemma url_regex_matches_iff c w c' :
  matches TRANSACTION_URL_REGEX c w c' <->
  c' = c /\
  exists x y z t,
    w = url_text x y z t /\
    is_dot x = true /\ is_dot y = true /\ is_dot z = true /\
    List.length t = 18%nat /\ forallb is_alnum t = true.
Proof.
  unfold TRANSACTION_URL_REGEX, alnum. cbn [cat]. split.
  - intros H. do 8 split_seq H. invert_pieces.
    split; [reflexivity|].
    match goal with
    | |- exists _ _ _ _,
        _ ++ [?a] ++ _ ++ [?b] ++ _ ++ [?d] ++ _ ++ ?t ++ [] = _ /\ _ =>
        exists a, b, d, t
    end.
    unfold url_text, url_head. rewrite app_nil_r, <- !app_assoc. auto 10.
  - intros [-> (x & y & z & t & -> & Hx & Hy & Hz & Hl & Ht)].
    unfold url_text, url_head. rewrite <- !app_assoc.
    repeat (apply M_Seq with (c' := c);
            [first [ now apply matches_lit_iff
                   | apply matches_Cls_iff; eauto ]|]).
    rewrite <- (app_nil_r t).
    apply M_Seq with (c' := c); [|constructor].
    apply matches_rep_Cls_iff. auto.
Qed.

Lemma reference_regex_matches_iff c w c' :
  matches TRANSACTION_REFERENCE_REGEX c w c' <->
  c' = c /\
  exists t, w = js "FT" ++ t /\ List.length t = 10%nat /\ forallb is_alnum t = true.
Proof.
  unfold TRANSACTION_REFERENCE_REGEX, alnum. cbn [cat]. split.
  - intros H. do 2 split_seq H. invert_pieces.
    split; [reflexivity|].
    match goal with
    | |- exists _, _ ++ ?t ++ [] = _ /\ _ => exists t
    end.
    rewrite app_nil_r. auto.
  - intros [-> (t & -> & Hl & Ht)].
    apply M_Seq with (c' := c); [now apply matches_lit_iff|].
    rewrite <- (app_nil_r t).
    apply M_Seq with (c' := c); [|constructor].
    apply matches_rep_Cls_iff. auto.
Qed.

(** [TRANSACTION_URL_REGEX.test] holds of the strings that contain a
    match: the pattern is not anchored. *)
Lemma url_test_iff (s : jsstring) :
  test TRANSACTION_URL_REGEX s = true <->
  exists pre x y z t post,
    s = pre ++ url_text x y z t ++ post /\
    is_dot x = true /\ is_dot y = true /\ is_dot z = true /\
    List.length t = 18%nat /\ forallb is_alnum t = true.
Proof.
  rewrite test_true_iff. split.
  - intros (pre & w & post & c' & -> & Hm).
    apply url_regex_matches_iff in Hm.
    destruct Hm as (_ & x & y & z & t & -> & H).
    exists pre, x, y, z, t, post. auto.
  - intros (pre & x & y & z & t & post & -> & H).
    exists pre, (url_text x y z t), post, None. split; [reflexivity|].
    apply url_regex_matches_iff. split; [reflexivity|].
    exists x, y, z, t. auto.
Qed.

Lemma reference_test_iff (s : jsstring) :
  test TRANSACTION_REFERENCE_REGEX s = true <->
  exists pre t post,
    s = pre ++ (js "FT" ++ t) ++ post /\
    List.length t = 10%nat /\ forallb is_alnum t = true.
Proof.
  rewrite test_true_iff. split.
  - intros (pre & w & post & c' & -> & Hm).
    apply reference_regex_matches_iff in Hm.
    destruct Hm as (_ & t & -> & H).
    exists pre, t, post. auto.
  - intros (pre & t & post & -> & H).
    exists pre, (js "FT" ++ t), post, None. split; [reflexivity|].
    apply reference_regex_matches_iff. split; [reflexivity|].
    exists t. auto.
Qed.

(** ** [slice] from the end *)

Lemma clamp_index_neg (len i : Z) :
  (i < 0)%Z -> clamp_index len i = Z.max (len + i) 0.
Proof. intros H. unfold clamp_index. apply Z.ltb_lt in H. now rewrite H. Qed.

Lemma clamp_index_nonneg (len i : Z) :
  (0 <= i)%Z -> clamp_index len i = Z.min i len.
Proof. intros H. unfold clamp_index. apply Z.ltb_ge in H. now rewrite H. Qed.

Lemma slice_last_8 (s : jsstring) : slice s (-8) None = last_chars 8 s.
Proof.
  unfold slice, last_chars. rewrite clamp_index_neg by lia.
  set (len := List.length s).
  replace (Z.to_nat (Z.max (Z.of_nat len + -8) 0)) with (len - 8)%nat by lia.
  apply firstn_all2. rewrite length_skipn. fold len. lia.
Qed.

Lemma slice_without_last_8 (s : jsstring) :
  slice s 0 (Some (-8)%Z) = without_last 8 s.
Proof.
  unfold slice, without_last.
  rewrite clamp_index_neg by lia. rewrite clamp_index_nonneg by lia.
  set (len := List.length s).
  replace (Z.to_nat (Z.min 0 (Z.of_nat len))) with 0%nat by lia.
  simpl skipn. f_equal. lia.
Qed.

Lemma last_chars_short (n : nat) (s : jsstring) :
  (List.length s <= n)%nat -> last_chars n s = s.
Proof.
  intros H. unfold last_chars.
  replace (List.length s - n)%nat with 0%nat by lia. reflexivity.
Qed.

Lemma last_chars_length (n : nat) (s : jsstring) :
  (n <= List.length s)%nat -> List.length (last_chars n s) = n.
Proof. intros H. unfold last_chars. rewrite length_skipn. lia. Qed.

Example parse_receipt_date_sample :
  SampleHost.parse_receipt_date (js "12/25/2023, 2:30:45 PM")
  = ValidDate 1703514645000.
Proof. vm_compute. reflexivity. Qed.

Example extract_sample :
  extractTransactionDetails SampleHost.host SampleHost.receipt_text SampleHost.config
  = Ok {| transactionRefNumber := Some (js "FT25200VMC5N");
          paymentDateTime := Some (ValidDate 1703514645000);
          totalAmountDebited := Some (js "1,500.00 ETB");
          receiver := Some (js "ACME Corporation Ltd");
          payer := Some (js "John Doe") |}.
Proof. vm_compute. reflexivity. Qed.

(** The two URL cases of [test/payment-verifier.test.ts]. *)
Example verify_with_reference :
  snd (verifyDirectDeposit SampleHost.host (VString (js "FT25200VMC5N56279011"))
                           SampleHost.config [])
  = [(js "https://apps.cbe.com.et:100/?id=FT25200VMC5N5627901188961473",
      SampleHost.config)].
Proof. vm_compute. reflexivity. Qed.

Example verify_with_url :
  snd (verifyDirectDeposit SampleHost.host
         (VString (js "https://apps.cbe.com.et:100/?id=FT25200VMC5N56279011"))
         SampleHost.config [])
  = [(js "https://apps.cbe.com.et:100/?id=FT25200VMC5N88961473", SampleHost.config)].
Proof. vm_compute. reflexivity. Qed.

Example verify_invalid_input :
  verifyDirectDeposit SampleHost.host (VString (js "invalid-input-123!"))
                      SampleHost.config []
  = (Throw InvalidInputFormat, []).
Proof. vm_compute. reflexivity. Qed.

(** ** The transaction validator *)

Lemma quot_whole_hours (d : Z) : whole_hours d (Z.quot d MILLISECONDS_A_HOUR).
Proof.
  unfold whole_hours, MILLISECONDS_A_HOUR.
  pose proof (Z.quot_rem' d 3600000) as Hqr.
  split; intros Hd.
  - pose proof (Z.rem_bound_pos d 3600000 Hd ltac:(lia)). lia.
  - pose proof (Z.rem_nonpos d 3600000 ltac:(lia) Hd).
    pose proof (Z.rem_bound_abs d 3600000 ltac:(lia)). lia.
Qed.

Lemma exceeds_true_iff (a : Z) (m : Q) :
  exceeds (Some a) m = true <-> (m < inject_Z a)%Q.
Proof.
  unfold exceeds. rewrite negb_true_iff. split.
  - intros H. apply Qnot_le_lt. intros Hle.
    apply Qle_bool_iff in Hle. congruence.
  - intros H. destruct (Qle_bool (inject_Z a) m) eqn:E; [|reflexivity].
    apply Qle_bool_iff in E. exfalso. eapply Qlt_not_le; eauto.
Qed.

Lemma validateTransactionAge_valid (h : Host) (t : Z) (m : Q) :
  validateTransactionAge h (ValidDate t) m =
  if exceeds (Some (Z.quot (clock h - t) MILLISECONDS_A_HOUR)) m
  then Throw (TransactionTooOld m (Z.quot (clock h - t) MILLISECONDS_A_HOUR))
  else Ok tt.
Proof. reflexivity. Qed.

Lemma validateTransactionAge_too_old (h : Host) (t : Z) (m : Q) :
  (m < inject_Z (Z.quot (clock h - t) MILLISECONDS_A_HOUR))%Q ->
  validateTransactionAge h (ValidDate t) m =
  Throw (TransactionTooOld m (Z.quot (clock h - t) MILLISECONDS_A_HOUR)).
Proof.
  intros H. rewrite validateTransactionAge_valid.
  apply exceeds_true_iff in H. now rewrite H.
Qed.

Lemma validateTransactionAge_fresh (h : Host) (t : Z) (m : Q) :
  (inject_Z (Z.quot (clock h - t) MILLISECONDS_A_HOUR) <= m)%Q ->
  validateTransactionAge h (ValidDate t) m = Ok tt.
Proof.
  intros H. rewrite validateTransactionAge_valid.
  destruct (exceeds _ m) eqn:E; [|reflexivity].
  apply exceeds_true_iff in E. exfalso. eapply Qlt_not_le; eauto.
Qed.

Lemma quot_hours_exact (n : Z) :
  Z.quot (n * MILLISECONDS_A_HOUR) MILLISECONDS_A_HOUR = n.
Proof. apply Z.quot_mul. unfold MILLISECONDS_A_HOUR. lia. Qed.

Lemma whole_hours_unique (d age : Z) :
  whole_hours d age -> age = Z.quot d MILLISECONDS_A_HOUR.
Proof.
  intros [Hp Hn]. destruct (quot_whole_hours d) as [Qp Qn].
  unfold MILLISECONDS_A_HOUR in *.
  destruct (Z_le_gt_dec 0 d) as [Hd|Hd].
  - specialize (Hp Hd). specialize (Qp Hd). lia.
  - specialize (Hn ltac:(lia)). specialize (Qn ltac:(lia)). lia.
Qed.

(** A span of [ms] milliseconds that is exactly [m] hours, [m] positive:
    its whole hours are at most [m], and with one hour more they exceed
    [m]. *)
Lemma exact_hours_bounds (m : Q) (ms : Z) :
  (0 < m)%Q -> (inject_Z ms == m * 3600000)%Q ->
  (inject_Z (Z.quot ms MILLISECONDS_A_HOUR) <= m)%Q /\
  Z.quot (ms + 3600000) MILLISECONDS_A_HOUR = (Z.quot ms MILLISECONDS_A_HOUR + 1)%Z /\
  (m < inject_Z (Z.quot ms MILLISECONDS_A_HOUR + 1))%Q.
Proof.
  intros Hpos Heq.
  assert (Hms : (0 <= ms)%Z).
  { rewrite Zle_Qle. change (inject_Z 0) with 0%Q. lra. }
  destruct (quot_whole_hours ms) as [Hq _]. specialize (Hq Hms).
  set (q := Z.quot ms MILLISECONDS_A_HOUR) in *.
  destruct Hq as [Hlo Hhi].
  rewrite Zle_Qle in Hlo. rewrite Zlt_Qlt in Hhi.
  rewrite inject_Z_mult in Hlo, Hhi. rewrite inject_Z_plus in Hhi.
  change (inject_Z 3600000) with 3600000%Q in *.
  change (inject_Z 1) with 1%Q in *.
  split; [lra|]. split.
  - symmetry. apply whole_hours_unique. split; intros H.
    + destruct (quot_whole_hours ms) as [Hq _]. specialize (Hq Hms).
      fold q in Hq. lia.
    + lia.
  - rewrite inject_Z_plus. change (inject_Z 1) with 1%Q. lra.
Qed.

(** C1. For every present payment timestamp and every positive
    [maxAgeHours].  When the timestamp is a point in time [t], the age is
    the number of whole hours, of 3600000 milliseconds each, between the
    clock and [t], partial hours dropped.  Validation throws the too-old
    error exactly when the timestamp has such an age and that integer is
    strictly greater than [maxAgeHours]; it accepts exactly when the age
    is at most [maxAgeHours] or the timestamp is an Invalid Date, which
    has no age.  A timestamp exactly [maxAgeHours] in the past is
    accepted, and one a further hour older is rejected. *)
Theorem validateTransactionAge_threshold (h : Host) (d : Date) (maxAgeHours : Q) :
  (0 < maxAgeHours)%Q ->
  (forall t, d = ValidDate t ->
             exists age, dayjs_diff_hour (clock h) d = Some age /\
                         whole_hours (clock h - t) age) /\
  (forall e, validateTransactionAge h d maxAgeHours = Throw e <->
             exists t age,
               d = ValidDate t /\ whole_hours (clock h - t) age /\
               (maxAgeHours < inject_Z age)%Q /\
               e = TransactionTooOld maxAgeHours age) /\
  (validateTransactionAge h d maxAgeHours = Ok tt <->
   d = InvalidDate \/
   exists t age,
     d = ValidDate t /\ whole_hours (clock h - t) age /\
     (inject_Z age <= maxAgeHours)%Q) /\
  (forall ms : Z,
      (inject_Z ms == maxAgeHours * 3600000)%Q ->
      validateTransactionAge h (ValidDate (clock h - ms)) maxAgeHours = Ok tt /\
      (maxAgeHours < inject_Z (Z.quot ms 3600000 + 1))%Q /\
      validateTransactionAge h (ValidDate (clock h - (ms + 3600000))) maxAgeHours
      = Throw (TransactionTooOld maxAgeHours (Z.quot ms 3600000 + 1))).
Proof.
  intros Hpos. split; [|split; [|split]].
  - intros t ->. exists (Z.quot (clock h - t) MILLISECONDS_A_HOUR).
    split; [reflexivity|apply quot_whole_hours].
  - intros e. split.
    + intros H. destruct d as [t|]; [|discriminate].
      exists t, (Z.quot (clock h - t) MILLISECONDS_A_HOUR).
      split; [reflexivity|]. split; [apply quot_whole_hours|].
      rewrite validateTransactionAge_valid in H.
      destruct (exceeds _ maxAgeHours) eqn:E; [|discriminate].
      apply exceeds_true_iff in E. split; [exact E|congruence].
    + intros (t & age & -> & Hwh & Hlt & ->).
      apply whole_hours_unique in Hwh. subst age.
      now apply validateTransactionAge_too_old.
  - split.
    + intros H. destruct d as [t|]; [right|now left].
      exists t, (Z.quot (clock h - t) MILLISECONDS_A_HOUR).
      split; [reflexivity|]. split; [apply quot_whole_hours|].
      apply Qnot_lt_le. intros Hlt.
      rewrite (validateTransactionAge_too_old h t maxAgeHours Hlt) in H. discriminate.
    + intros [->|(t & age & -> & Hwh & Hle)]; [reflexivity|].
      apply whole_hours_unique in Hwh. subst age.
      now apply validateTransactionAge_fresh.
  - intros ms Heq.
    destruct (exact_hours_bounds maxAgeHours ms Hpos Heq) as (Hle & Hnext & Hlt).
    change 3600000%Z with MILLISECONDS_A_HOUR at 1 3.
    split; [|split].
    + apply validateTransactionAge_fresh.
      replace (clock h - (clock h - ms))%Z with ms by lia. exact Hle.
    + exact Hlt.
    + pose proof (validateTransactionAge_too_old
                    h (clock h - (ms + 3600000)) maxAgeHours) as H.
      replace (clock h - (clock h - (ms + 3600000)))%Z with (ms + 3600000)%Z in H by lia.
      rewrite Hnext in H. apply H. exact Hlt.
Qed.

Lemma validateTransactionAge_threshold_witness :
  validateTransactionAge SampleHost.host InvalidDate 24 = Ok tt
  /\ validateTransactionAge SampleHost.host
       (ValidDate (clock SampleHost.host - 86400000)) 24 = Ok tt
  /\ (24 < inject_Z (Z.quot 86400000 3600000 + 1))%Q
  /\ validateTransactionAge SampleHost.host
       (ValidDate (clock SampleHost.host - (86400000 + 3600000))) 24
     = Throw (TransactionTooOld 24 (Z.quot 86400000 3600000 + 1)).
Proof.
  split.
  - apply (proj2 (proj1 (proj2 (proj2 (validateTransactionAge_threshold
             SampleHost.host InvalidDate 24 ltac:(reflexivity)))))).
    left. reflexivity.
  - apply (proj2 (proj2 (proj2 (validateTransactionAge_threshold
             SampleHost.host InvalidDate 24 ltac:(reflexivity)))) 86400000%Z).
    reflexivity.
Defined.

(** C10. A payment timestamp at or after the clock gives an hour
    difference that is zero or negative, so under any positive limit the
    age check accepts it. *)
Theorem validateTransactionAge_future (h : Host) (t : Z) (maxAgeHours : Q) :
  (clock h <= t)%Z -> (0 < maxAgeHours)%Q ->
  (exists age : Z,
      dayjs_diff_hour (clock h) (ValidDate t) = Some age /\ (age <= 0)%Z) /\
  validateTransactionAge h (ValidDate t) maxAgeHours = Ok tt.
Proof.
  intros Hle Hpos.
  assert (Hage : (Z.quot (clock h - t) MILLISECONDS_A_HOUR <= 0)%Z).
  { destruct (quot_whole_hours (clock h - t)) as [_ Hneg].
    unfold MILLISECONDS_A_HOUR in *. specialize (Hneg ltac:(lia)). lia. }
  split.
  - eexists. split; [reflexivity|exact Hage].
  - apply validateTransactionAge_fresh.
    apply Qle_trans with (y := inject_Z 0).
    + now rewrite <- Zle_Qle.
    + now apply Qlt_le_weak.
Qed.

Lemma validateTransactionAge_future_witness :
  (exists age : Z,
      dayjs_diff_hour (clock SampleHost.host)
                      (ValidDate (clock SampleHost.host + 5400000)) = Some age
      /\ (age <= 0)%Z) /\
  validateTransactionAge SampleHost.host
    (ValidDate (clock SampleHost.host + 5400000)) 24 = Ok tt.
Proof.
  apply (@validateTransactionAge_future SampleHost.host
           (clock SampleHost.host + 5400000) 24).
  - simpl. lia.
  - reflexivity.
Defined.

(** ** The input classifier and the URL builder *)

Lemma validateInput_string (s : jsstring) :
  validateInput (VString s) =
  if negb (truthy s) then Throw EmptyInput
  else if (negb (test TRANSACTION_REFERENCE_REGEX s)
           && negb (test TRANSACTION_URL_REGEX s))%bool
       then Throw InvalidInputFormat
       else Ok tt.
Proof.
  unfold validateInput. cbn [to_boolean is_string string_of].
  now rewrite orb_false_r.
Qed.

Lemma validateInput_not_string (v : JSValue) :
  is_string v = false -> validateInput v = Throw EmptyInput.
Proof.
  intros H. unfold validateInput. rewrite H. cbn [negb].
  now rewrite orb_true_r.
Qed.

Lemma validateInput_ok (s : jsstring) :
  validateInput (VString s) = Ok tt ->
  s <> [] /\
  (test TRANSACTION_URL_REGEX s = true \/ test TRANSACTION_REFERENCE_REGEX s = true).
Proof.
  rewrite validateInput_string.
  destruct s as [|a s]; [discriminate|]. cbn [truthy negb].
  destruct (test TRANSACTION_REFERENCE_REGEX (a :: s)),
           (test TRANSACTION_URL_REGEX (a :: s)); cbn; intros H;
    try discriminate; split; auto; discriminate.
Qed.

Lemma constructPdfUrl_url (input acct : jsstring) :
  test TRANSACTION_URL_REGEX input = true ->
  constructPdfUrl input acct = Ok (without_last 8 input ++ last_chars 8 acct).
Proof.
  intros H. unfold constructPdfUrl. rewrite H.
  now rewrite slice_without_last_8, slice_last_8.
Qed.

Lemma constructPdfUrl_reference (input acct : jsstring) :
  test TRANSACTION_URL_REGEX input = false ->
  test TRANSACTION_REFERENCE_REGEX input = true ->
  constructPdfUrl input acct
  = Ok (CBE_VERIFICATION_BASE_URL ++ js "/?id=" ++ input ++ last_chars 8 acct).
Proof.
  intros Hu Hr. unfold constructPdfUrl. rewrite Hu, Hr.
  now rewrite slice_last_8.
Qed.

(** C4. On an input that passed [validateInput]: a URL-shaped input gives
    its characters without the last 8 followed by the last 8 characters of
    the account number; any other input, a reference code, gives the base
    URL, the segment [/?id=], the input and the last 8 characters of the
    account number; and the last 8 characters of an account number shorter
    than 8 are the whole account number. *)
Theorem constructPdfUrl_builds (input accountNumber : jsstring) :
  validateInput (VString input) = Ok tt ->
  (test TRANSACTION_URL_REGEX input = true ->
   constructPdfUrl input accountNumber
   = Ok (without_last 8 input ++ last_chars 8 accountNumber)) /\
  (test TRANSACTION_URL_REGEX input = false ->
   constructPdfUrl input accountNumber
   = Ok (CBE_VERIFICATION_BASE_URL ++ js "/?id=" ++ input
         ++ last_chars 8 accountNumber)) /\
  ((List.length accountNumber < 8)%nat ->
   slice accountNumber (-8) None = accountNumber /\
   last_chars 8 accountNumber = accountNumber).
Proof.
  intros Hok. apply validateInput_ok in Hok. destruct Hok as [_ Hshape].
  split; [|split].
  - apply constructPdfUrl_url.
  - intros Hu. apply constructPdfUrl_reference; [exact Hu|].
    destruct Hshape as [H|H]; [congruence|exact H].
  - intros Hlen. rewrite slice_last_8.
    split; apply last_chars_short; lia.
Qed.

Lemma constructPdfUrl_builds_witness :
  constructPdfUrl (js "FT0123456789") (js "1234567")
  = Ok (js "https://apps.cbe.com.et:100/?id=FT01234567891234567")
  /\ constructPdfUrl (js "https://apps.cbe.com.et:100/?id=FT012345678901234567")
                     (js "00012345678")
     = Ok (js "https://apps.cbe.com.et:100/?id=FT012345678912345678").
Proof.
  split.
  - exact (proj1 (proj2 (constructPdfUrl_builds (js "FT0123456789") (js "1234567")
                           eq_refl)) eq_refl).
  - exact (proj1 (constructPdfUrl_builds
                    (js "https://apps.cbe.com.et:100/?id=FT012345678901234567")
                    (js "00012345678") eq_refl) eq_refl).
Defined.




(** ** Re-targeting a receipt URL *)

Lemma forallb_firstn (p : N -> bool) (n : nat) (l : jsstring) :
  forallb p l = true -> forallb p (firstn n l) = true.
Proof.
  revert n. induction l as [|a l IH]; intros [|n] H; simpl; auto.
  simpl in H. apply andb_true_iff in H. destruct H as [Ha Hl].
  rewrite Ha. simpl. auto.
Qed.

(** Dropping the last 8 characters of [front ++ t ++ post] and appending 8
    others leaves, after [front], 18 characters again: [t] itself when
    [post] has 8 characters or more, and otherwise what is left of [t]
    completed by the first appended characters. *)
Lemma retarget_tail (front t post a8 : jsstring) :
  List.length t = 18%nat -> List.length a8 = 8%nat ->
  exists t' post',
    without_last 8 (front ++ t ++ post) ++ a8 = front ++ t' ++ post' /\
    List.length t' = 18%nat /\
    (forallb is_alnum t = true -> forallb is_alnum a8 = true ->
     forallb is_alnum t' = true).
Proof.
  intros Ht Ha. unfold without_last.
  destruct (le_lt_dec 8 (List.length post)) as [Hk|Hk].
  - exists t, (firstn (List.length post - 8) post ++ a8). split; [|auto].
    rewrite !length_app, !firstn_app.
    rewrite (firstn_all2 front) by lia.
    rewrite (firstn_all2 t) by lia.
    rewrite <- !app_assoc. do 3 f_equal. f_equal. lia.
  - exists (firstn (10 + List.length post) t ++ firstn (8 - List.length post) a8),
           (skipn (8 - List.length post) a8).
    split; [|split].
    + rewrite !length_app, !firstn_app.
      rewrite (firstn_all2 front) by lia.
      replace (List.length front + (List.length t + List.length post) - 8
               - List.length front - List.length t)%nat with 0%nat by lia.
      rewrite firstn_O, app_nil_r.
      rewrite <- !app_assoc. rewrite (firstn_skipn (8 - List.length post) a8).
      do 2 f_equal. f_equal. lia.
    + rewrite length_app, !length_firstn. lia.
    + intros Halt Hala. rewrite forallb_app.
      rewrite !forallb_firstn by assumption. reflexivity.
Qed.

Lemma forallb_skipn (p : N -> bool) (n : nat) (l : jsstring) :
  forallb p l = true -> forallb p (skipn n l) = true.
Proof.
  revert n. induction l as [|a l IH]; intros [|n] H; simpl; auto.
  simpl in H. apply andb_true_iff in H. destruct H as [_ Hl]. auto.
Qed.

(** C7, as stated, fails: with an account number of 7 characters the URL
    built from a receipt URL has only 17 characters after the prefix, and
    with a hyphen among the last 8 characters of the account number it has
    a hyphen among its 18. *)
Lemma retarget_loses_url_shape :
  test TRANSACTION_URL_REGEX
       (js "https://apps.cbe.com.et:100/?id=FT25200VMC5G56280011") = true
  /\ (constructPdfUrl (js "https://apps.cbe.com.et:100/?id=FT25200VMC5G56280011")
                      (js "1234567")
      = Ok (js "https://apps.cbe.com.et:100/?id=FT25200VMC5G1234567")
      /\ test TRANSACTION_URL_REGEX
               (js "https://apps.cbe.com.et:100/?id=FT25200VMC5G1234567") = false)
  /\ (constructPdfUrl (js "https://apps.cbe.com.et:100/?id=FT25200VMC5G56280011")
                      (js "1000-188-961")
      = Ok (js "https://apps.cbe.com.et:100/?id=FT25200VMC5G-188-961")
      /\ test TRANSACTION_URL_REGEX
               (js "https://apps.cbe.com.et:100/?id=FT25200VMC5G-188-961") = false).
Proof. vm_compute. auto. Qed.

(** C7, amended. For a URL-shaped input and an account number of at least
    8 characters whose last 8 characters are alphanumeric, the URL that
    [constructPdfUrl] builds is URL-shaped again. *)
Theorem constructPdfUrl_keeps_url_shape (input accountNumber : jsstring) :
  test TRANSACTION_URL_REGEX input = true ->
  (8 <= List.length accountNumber)%nat ->
  forallb is_alnum (last_chars 8 accountNumber) = true ->
  exists url,
    constructPdfUrl input accountNumber = Ok url /\
    test TRANSACTION_URL_REGEX url = true.
Proof.
  intros Hu Hlen Halnum.
  exists (without_last 8 input ++ last_chars 8 accountNumber).
  split; [now apply constructPdfUrl_url|].
  apply url_test_iff in Hu.
  destruct Hu as (pre & x & y & z & t & post & -> & Hx & Hy & Hz & Ht & Hta).
  unfold url_text. rewrite <- app_assoc, app_assoc.
  destruct (retarget_tail (pre ++ url_head x y z) t post
                          (last_chars 8 accountNumber) Ht
                          (last_chars_length 8 accountNumber Hlen))
    as (t' & post' & Heq & Ht' & Halnum').
  rewrite Heq. apply url_test_iff.
  exists pre, x, y, z, t', post'. unfold url_text.
  rewrite <- !app_assoc. auto 10.
Qed.

Lemma constructPdfUrl_keeps_url_shape_witness :
  exists url,
    constructPdfUrl (js "https://apps.cbe.com.et:100/?id=FT25200VMC5N56279011")
                    (js "1000188961473") = Ok url /\
    test TRANSACTION_URL_REGEX url = true.
Proof.
  apply constructPdfUrl_keeps_url_shape.
  - vm_compute. reflexivity.
  - vm_compute. lia.
  - vm_compute. reflexivity.
Defined.

(** ** The orchestrator *)

(** Past the two input gates, the PDF extractor is called once, with the
    URL built from the input, and its text goes to the parser. *)
Lemma verifyDirectDeposit_fetches (h : Host) (input : JSValue)
      (config : PaymentVerificationConfig) (url : jsstring) (log : list request) :
  validateInput input = Ok tt ->
  truthy (cbeAccountNumber config) = true ->
  constructPdfUrl (string_of input) (cbeAccountNumber config) = Ok url ->
  verifyDirectDeposit h input config log
  = (match extractTextFromPdfUrl h url config with
     | Ok pdfText => extractTransactionDetails h pdfText config
     | Throw e => Throw e
     end,
     log ++ [(url, config)]).
Proof.
  intros Hin Hacct Hurl.
  unfold verifyDirectDeposit, bind, lift, rethrow, await_extractTextFromPdfUrl, ret, throw.
  rewrite Hin, Hacct, Hurl. cbn [negb].
  destruct (extractTextFromPdfUrl h url config) as [pdfText|e]; [|reflexivity].
  destruct (extractTransactionDetails h pdfText config); reflexivity.
Qed.

(** An input that fails [validateInput] stops the pipeline there. *)
Lemma verifyDirectDeposit_rejects (h : Host) (input : JSValue)
      (config : PaymentVerificationConfig) (e : error) (log : list request) :
  validateInput input = Throw e ->
  verifyDirectDeposit h input config log = (Throw e, log).
Proof.
  intros Hin. unfold verifyDirectDeposit, bind, lift. now rewrite Hin.
Qed.

(** C5. On the empty string, and on any value that is not a string,
    [verifyDirectDeposit] fails with the empty-input error and the log of
    calls to the PDF extractor is left as it was: nothing is fetched. *)
Theorem verifyDirectDeposit_empty_input (h : Host) (input : JSValue)
        (config : PaymentVerificationConfig) (log : list request) :
  input = VString [] \/ is_string input = false ->
  verifyDirectDeposit h input config log = (Throw EmptyInput, log).
Proof.
  intros [->|Hns]; apply verifyDirectDeposit_rejects.
  - reflexivity.
  - now apply validateInput_not_string.
Qed.

Lemma verifyDirectDeposit_empty_input_witness :
  verifyDirectDeposit SampleHost.host (VString []) SampleHost.config []
  = (Throw EmptyInput, [])
  /\ verifyDirectDeposit SampleHost.host VNull SampleHost.config []
     = (Throw EmptyInput, []).
Proof.
  split.
  - apply verifyDirectDeposit_empty_input. left. reflexivity.
  - apply verifyDirectDeposit_empty_input. right. reflexivity.
Defined.

(** C9. An input that has any characters but line terminators where the
    host of the receipt URL has its dots, followed by [/?id=FT] and 18
    alphanumeric characters, is URL-shaped for the code and passes
    [validateInput]; with a non-empty account number, the PDF extractor is
    then called on that input with its last 8 characters replaced. *)
Theorem url_dots_match_any_character (h : Host) (config : PaymentVerificationConfig)
        (x y z : N) (t : jsstring) (log : list request) :
  is_dot x = true -> is_dot y = true -> is_dot z = true ->
  List.length t = 18%nat -> forallb is_alnum t = true ->
  cbeAccountNumber config <> [] ->
  test TRANSACTION_URL_REGEX (url_text x y z t) = true /\
  validateInput (VString (url_text x y z t)) = Ok tt /\
  snd (verifyDirectDeposit h (VString (url_text x y z t)) config log)
  = log ++ [(without_last 8 (url_text x y z t)
             ++ last_chars 8 (cbeAccountNumber config), config)].
Proof.
  intros Hx Hy Hz Hlen Halnum Hacct.
  assert (Hu : test TRANSACTION_URL_REGEX (url_text x y z t) = true).
  { apply url_test_iff. exists [], x, y, z, t, [].
    rewrite app_nil_r. simpl. auto 10. }
  assert (Hv : validateInput (VString (url_text x y z t)) = Ok tt).
  { rewrite validateInput_string, Hu. unfold url_text, url_head. cbn [js].
    simpl. now rewrite andb_false_r. }
  split; [exact Hu|]. split; [exact Hv|].
  erewrite verifyDirectDeposit_fetches.
  - reflexivity.
  - exact Hv.
  - destruct (cbeAccountNumber config); [congruence|reflexivity].
  - cbn [string_of]. now apply constructPdfUrl_url.
Qed.

Lemma url_dots_match_any_character_witness :
  test TRANSACTION_URL_REGEX
       (js "https://appsXcbeYcomZet:100/?id=FT012345678901234567") = true /\
  validateInput (VString (js "https://appsXcbeYcomZet:100/?id=FT012345678901234567"))
  = Ok tt /\
  snd (verifyDirectDeposit SampleHost.host
         (VString (js "https://appsXcbeYcomZet:100/?id=FT012345678901234567"))
         SampleHost.config [])
  = [(js "https://appsXcbeYcomZet:100/?id=FT012345678988961473", SampleHost.config)].
Proof.
  exact (url_dots_match_any_character SampleHost.host SampleHost.config
           88 89 90 (js "012345678901234567") []
           eq_refl eq_refl eq_refl eq_refl eq_refl
           ltac:(discriminate)).
Defined.

(** ** The first match in priority order *)

Lemma flat_map_head {A B : Type} (f : A -> list B) (l : list A) (b : B) (bs : list B) :
  flat_map f l = b :: bs ->
  exists l1 a l2 bs',
    l = l1 ++ a :: l2 /\ (forall x, In x l1 -> f x = []) /\ f a = b :: bs'.
Proof.
  induction l as [|x l IH]; simpl; intros H; [discriminate|].
  destruct (f x) as [|b' bs'] eqn:Hfx.
  - simpl in H. destruct (IH H) as (l1 & a & l2 & bs' & -> & Hnil & Ha).
    exists (x :: l1), a, l2, bs'. repeat split; auto.
    intros y [<-|Hy]; auto.
  - simpl in H. inversion H; subst.
    exists [], x, l, bs'. repeat split; auto. intros y [].
Qed.

(** A greedy [c*] first takes every leading character of the class. *)
Lemma run_Star_Cls_head (p : N -> bool) (c : option jsstring) (s : jsstring) :
  exists l, run (Star (Cls p)) c s = (c, dropWhile p s) :: l.
Proof.
  induction s as [|a s IH]; cbn [run List.length star_loop].
  - eexists. reflexivity.
  - cbn [dropWhile]. destruct (p a) eqn:Hp.
    + cbn [flat_map snd fst].
      assert (Hlt : Nat.ltb (List.length s) (S (List.length s)) = true)
        by (apply Nat.ltb_lt; lia).
      rewrite Hlt, app_nil_r.
      destruct IH as [l IH]. cbn [run] in IH. rewrite IH.
      eexists. reflexivity.
    + cbn [flat_map]. eexists. reflexivity.
Qed.

Lemma run_plus_Cls_head (p : N -> bool) (c : option jsstring) (s : jsstring)
      (st : state) (l : list state) :
  run (plus (Cls p)) c s = st :: l ->
  exists a s', s = a :: s' /\ p a = true /\ st = (c, dropWhile p s').
Proof.
  unfold plus. cbn [run]. destruct s as [|a s']; [discriminate|].
  destruct (p a) eqn:Hp; [|discriminate].
  cbn [flat_map fst snd]. rewrite app_nil_r.
  destruct (run_Star_Cls_head p c s') as [l' Hl']. cbn [run] in Hl'.
  rewrite Hl'. intros H. inversion H; subst. eauto.
Qed.

Lemma dropWhile_stops (p : N -> bool) (s : jsstring) :
  dropWhile p s = [] \/ exists a r, dropWhile p s = a :: r /\ p a = false.
Proof.
  induction s as [|a s IH]; cbn [dropWhile]; auto.
  destruct (p a) eqn:Hp; auto. right. eauto.
Qed.

(** [exec] stops at the first position that has a match and takes the
    first state there. *)
Lemma exec_from_head (r : regex) :
  forall s i m,
    exec_from r i s = Some m ->
    exists pre suffix st l,
      s = pre ++ suffix /\ run r None suffix = st :: l /\ group1 m = fst st.
Proof.
  induction s as [|x s IH]; intros i m Hex; rewrite exec_from_eq in Hex;
    destruct (run r None _) as [|st l] eqn:Hrun; try discriminate.
  - inversion Hex; subst. exists [], [], st, l. auto.
  - apply IH in Hex. destruct Hex as (pre & suffix & st & l & -> & Hr & Hg).
    exists (x :: pre), suffix, st, l. auto.
  - inversion Hex; subst. exists [], (x :: s), st, l. auto.
Qed.

(** ** The field extractor *)

Lemma labelled_matches (label : String.string) (g : regex) c w c' :
  matches (labelled label g) c w c' ->
  exists ws cap c1,
    w = js label ++ ws ++ cap /\ forallb is_space ws = true /\
    matches g c cap c1 /\ c' = Some cap.
Proof.
  unfold labelled, space. cbn [cat]. intros H. do 3 split_seq H. invert_pieces.
  apply matches_Group_iff in Hm1. destruct Hm1 as [-> [c1 Hg]].
  match goal with
  | |- exists _ _ _, _ ++ ?ws ++ ?cap ++ [] = _ /\ _ => exists ws, cap, c1
  end.
  rewrite app_nil_r. auto.
Qed.

(** A capture follows its label. *)
Lemma labelled_capture (label : String.string) (g : regex) (text cap : jsstring) :
  match1 (labelled label g) text = Some cap ->
  exists post c1, follows_label (js label) text cap post /\ matches g None cap c1.
Proof.
  intros H. apply match1_some in H. destruct H as (pre & w & post & -> & Hm).
  apply labelled_matches in Hm.
  destruct Hm as (ws & cap' & c1 & -> & Hws & Hg & Hc). inversion Hc; subst cap'.
  exists post, c1. split; [|exact Hg].
  exists pre, ws. rewrite <- !app_assoc. auto.
Qed.

(** Without the label there is no match. *)
Lemma labelled_absent (label : String.string) (g : regex) (text : jsstring) :
  ~ occurs (js label) text -> match1 (labelled label g) text = None.
Proof.
  intros Hno. destruct (match1 (labelled label g) text) as [cap|] eqn:Hm; [|reflexivity].
  exfalso. apply Hno. apply labelled_capture in Hm.
  destruct Hm as (post & c1 & (pre & ws & -> & _) & _).
  exists pre, (ws ++ cap ++ post). reflexivity.
Qed.

Lemma run_Seq_head (a b : regex) c s (st : state) (l : list state) :
  run (Seq a b) c s = st :: l ->
  exists st1 l', In st1 (run a c s) /\ run b (fst st1) (snd st1) = st :: l'.
Proof.
  cbn [run]. intros H. apply flat_map_head in H.
  destruct H as (l1 & st1 & l2 & l' & Hl & _ & Hb).
  exists st1, l'. split; [|exact Hb].
  rewrite Hl. apply in_or_app. right. now left.
Qed.

Lemma run_Seq_Eps_head (a : regex) c s (st : state) (l : list state) :
  run (Seq a Eps) c s = st :: l -> exists l', run a c s = st :: l'.
Proof.
  cbn [run]. intros H. apply flat_map_head in H.
  destruct H as (l1 & st1 & l2 & l' & Hl & Hnil & Hb).
  destruct l1 as [|x l1].
  - simpl in Hl. inversion Hb; subst. destruct st1. simpl. eauto.
  - specialize (Hnil x (or_introl eq_refl)). discriminate.
Qed.

Lemma run_Group_head (a : regex) c s (st : state) (l : list state) :
  run (Group a) c s = st :: l ->
  exists st' l', run a c s = st' :: l' /\ snd st = snd st'.
Proof.
  cbn [run]. destruct (run a c s) as [|st' l']; [discriminate|].
  cbn [List.map]. intros H. inversion H; subst. eauto.
Qed.

(** After a capture by [(.+)] the text is at the end of a line. *)
Lemma labelled_line_head (label : String.string) c s (st : state) (l : list state) :
  run (labelled label (plus dot)) c s = st :: l -> at_line_end (snd st).
Proof.
  unfold labelled. cbn [cat]. intros H.
  apply run_Seq_head in H. destruct H as (st1 & l1 & _ & H).
  apply run_Seq_head in H. destruct H as (st2 & l2 & _ & H).
  apply run_Seq_Eps_head in H. destruct H as (l3 & H).
  apply run_Group_head in H. destruct H as (st' & l4 & H & Hsnd).
  apply run_plus_Cls_head in H. destruct H as (a & s' & _ & _ & ->).
  rewrite Hsnd. cbn [snd]. unfold at_line_end.
  destruct (dropWhile_stops is_dot s') as [->|(b & r & -> & Hb)]; [now left|].
  right. exists b, r. split; [reflexivity|].
  unfold is_dot in Hb. now apply negb_false_iff in Hb.
Qed.

(** A capture by [(.+)]: a non-empty run without a line terminator that
    follows the label and reaches the end of its line. *)
Lemma labelled_line_capture (label : String.string) (text cap : jsstring) :
  match1 (labelled label (plus dot)) text = Some cap ->
  cap <> [] /\ forallb is_dot cap = true /\
  exists post, follows_label (js label) text cap post /\ at_line_end post.
Proof.
  unfold match1, exec. intros H.
  destruct (exec_from (labelled label (plus dot)) 0 text) as [m|] eqn:Hex;
    [|discriminate].
  apply exec_from_head in Hex.
  destruct Hex as (pre & suffix & st & l & -> & Hrun & Hg).
  pose proof (labelled_line_head _ _ _ _ _ Hrun) as Hend.
  apply run_head_sound in Hrun. destruct Hrun as (w & Hs & _ & Hm).
  apply labelled_matches in Hm.
  destruct Hm as (ws & cap' & c1 & -> & Hws & Hdot & Hc).
  assert (cap' = cap) by congruence. subst cap'.
  unfold dot in Hdot. apply matches_plus_Cls_iff in Hdot.
  destruct Hdot as (Hne & Hall & _).
  repeat split; auto.
  exists (snd st). split; [|exact Hend].
  exists pre, ws. rewrite Hs, <- !app_assoc. auto.
Qed.

Lemma date_group_matches c w c' :
  matches (cat [rep_1_2 digit; lit "/"; rep_1_2 digit; lit "/"; rep 4 digit;
                lit ", "; rep_1_2 digit; lit ":"; rep 2 digit; lit ":";
                rep 2 digit; lit " "; Alt (lit "AM") (lit "PM")]) c w c' ->
  receipt_date_format w.
Proof.
  unfold digit. cbn [cat]. intros H. do 13 split_seq H. invert_pieces.
  match goal with
  | H : matches (Alt _ _) _ _ _ |- _ =>
      apply matches_Alt_iff in H; destruct H as [H|H];
      apply matches_lit_iff in H; destruct H as [-> ->]
  end;
    unfold receipt_date_format, digits;
    match goal with
    | |- exists _ _ _ _ _ _ _,
        ?mo ++ _ ++ ?d ++ _ ++ ?y ++ _ ++ ?hh ++ _ ++ ?mi ++ _ ++ ?ss ++ _ ++ ?ap ++ []
        = _ /\ _ => exists mo, d, y, hh, mi, ss, ap
    end;
    rewrite app_nil_r; repeat split; auto; lia.
Qed.

Lemma amount_group_matches c w c' :
  matches (cat [plus (Cls is_amount_char); Star space; lit "ETB"]) c w c' ->
  receipt_amount_format w.
Proof.
  unfold space. cbn [cat]. intros H. do 3 split_seq H. invert_pieces.
  unfold receipt_amount_format.
  match goal with
  | |- exists _ _, ?num ++ ?ws ++ _ ++ [] = _ /\ _ => exists num, ws
  end.
  rewrite app_nil_r. repeat split; auto.
Qed.

(** ** [trim] *)

Lemma dropWhile_hd (p : N -> bool) (s : jsstring) (a : N) :
  hd_error (dropWhile p s) = Some a -> p a = false.
Proof.
  induction s as [|b s IH]; cbn [dropWhile]; [discriminate|].
  destruct (p b) eqn:Hp; [exact IH|].
  cbn. intros H. inversion H; subst. exact Hp.
Qed.

Lemma dropWhile_suffix (p : N -> bool) (s : jsstring) :
  exists pre, s = pre ++ dropWhile p s.
Proof.
  induction s as [|b s [pre IH]]; cbn [dropWhile].
  - exists []. reflexivity.
  - destruct (p b).
    + exists (b :: pre). simpl. now rewrite <- IH.
    + exists []. reflexivity.
Qed.

Lemma dropWhile_id (p : N -> bool) (s : jsstring) :
  (forall a, hd_error s = Some a -> p a = false) -> dropWhile p s = s.
Proof.
  destruct s as [|b s]; [reflexivity|]. intros H. cbn [dropWhile].
  now rewrite (H b eq_refl).
Qed.

Lemma trim_first (s : jsstring) (a : N) :
  hd_error (trim s) = Some a -> is_space a = false.
Proof.
  unfold trim. intros H.
  destruct (dropWhile_suffix is_space (rev (dropWhile is_space s))) as [pre Hpre].
  apply (f_equal (@rev N)) in Hpre. rewrite rev_involutive, rev_app_distr in Hpre.
  apply dropWhile_hd with (s := s). rewrite Hpre.
  destruct (rev (dropWhile is_space (rev (dropWhile is_space s)))); [discriminate|].
  exact H.
Qed.

Lemma trim_last (s : jsstring) (a : N) :
  hd_error (rev (trim s)) = Some a -> is_space a = false.
Proof.
  unfold trim. rewrite rev_involutive. apply dropWhile_hd.
Qed.

Lemma trim_unspaced (s : jsstring) :
  (forall a, hd_error s = Some a -> is_space a = false) ->
  (forall a, hd_error (rev s) = Some a -> is_space a = false) ->
  trim s = s.
Proof.
  intros Hfirst Hlast. unfold trim.
  rewrite (dropWhile_id is_space s Hfirst).
  rewrite (dropWhile_id is_space (rev s) Hlast).
  apply rev_involutive.
Qed.

Lemma or_null_trim (m : option jsstring) :
  absent_or_trimmed (or_null (option_map trim m)).
Proof.
  destruct m as [c|]; cbn [option_map or_null]; [|exact I].
  destruct (trim c) as [|a v] eqn:Ht; cbn [truthy]; [exact I|].
  rewrite <- Ht. repeat split.
  - rewrite Ht. discriminate.
  - apply trim_first.
  - apply trim_last.
Qed.

Lemma or_null_trim_empty (m : option jsstring) (c : jsstring) :
  m = Some c -> trim c = [] -> or_null (option_map trim m) = None.
Proof. intros -> Ht. cbn [option_map or_null]. now rewrite Ht. Qed.

Lemma forallb_weaken (p q : N -> bool) (l : jsstring) :
  (forall a, p a = true -> q a = true) ->
  forallb p l = true -> forallb q l = true.
Proof.
  intros Hpq. induction l as [|a l IH]; simpl; auto.
  intros H. apply andb_true_iff in H. destruct H as [Ha Hl].
  rewrite (Hpq a Ha). simpl. auto.
Qed.

Ltac char_facts :=
  unfold is_amount_char, is_digit, is_alnum, is_dot, is_space, is_line_terminator,
    in_range in *;
  repeat match goal with
  | H : _ = true |- _ =>
      first [ apply andb_true_iff in H; destruct H
            | apply orb_true_iff in H; destruct H
            | apply N.leb_le in H
            | apply N.eqb_eq in H ]
  end.

Lemma is_digit_not_space (a : N) : is_digit a = true -> is_space a = false.
Proof.
  intros H. destruct (is_space a) eqn:Hs; [|reflexivity].
  exfalso. char_facts; lia.
Qed.

Lemma is_digit_is_dot (a : N) : is_digit a = true -> is_dot a = true.
Proof.
  intros H. destruct (is_dot a) eqn:Hd; [reflexivity|].
  exfalso. apply negb_false_iff in Hd. fold (is_line_terminator a) in Hd.
  char_facts; lia.
Qed.

Lemma is_amount_char_not_space (a : N) : is_amount_char a = true -> is_space a = false.
Proof.
  intros H. destruct (is_space a) eqn:Hs; [|reflexivity].
  exfalso. char_facts; lia.
Qed.

Lemma digits_nonempty_hd (lo hi : nat) (s : jsstring) :
  (1 <= lo)%nat -> digits lo hi s ->
  exists a r, s = a :: r /\ is_digit a = true.
Proof.
  intros Hlo [Hlen Hall]. destruct s as [|a r]; [simpl in Hlen; lia|].
  simpl in Hall. apply andb_true_iff in Hall. destruct Hall as [Ha _]. eauto.
Qed.

(** A captured payment date has no line terminator and nothing to trim. *)
Lemma receipt_date_format_facts (c : jsstring) :
  receipt_date_format c ->
  c <> [] /\ forallb is_dot c = true /\ trim c = c.
Proof.
  intros (mo & d & y & hh & mi & ss & ap & -> & Hmo & Hd & Hy & Hhh & Hmi & Hss & Hap).
  destruct (digits_nonempty_hd 1 2 mo (le_n 1) Hmo) as (a & r & -> & Ha).
  split; [discriminate|]. split.
  - rewrite !forallb_app.
    rewrite (forallb_weaken is_digit is_dot _ is_digit_is_dot (proj2 Hmo)).
    rewrite (forallb_weaken is_digit is_dot _ is_digit_is_dot (proj2 Hd)).
    rewrite (forallb_weaken is_digit is_dot _ is_digit_is_dot (proj2 Hy)).
    rewrite (forallb_weaken is_digit is_dot _ is_digit_is_dot (proj2 Hhh)).
    rewrite (forallb_weaken is_digit is_dot _ is_digit_is_dot (proj2 Hmi)).
    rewrite (forallb_weaken is_digit is_dot _ is_digit_is_dot (proj2 Hss)).
    destruct Hap as [->| ->]; reflexivity.
  - apply trim_unspaced.
    + cbn. intros b Hb. inversion Hb; subst. now apply is_digit_not_space.
    + rewrite !rev_app_distr.
      destruct Hap as [->| ->]; cbn; intros b Hb; inversion Hb; reflexivity.
Qed.

(** A captured amount has nothing to trim. *)
Lemma receipt_amount_format_facts (c : jsstring) :
  receipt_amount_format c -> c <> [] /\ trim c = c.
Proof.
  intros (num & ws & -> & Hne & Hnum & Hws).
  destruct num as [|a num]; [congruence|].
  simpl in Hnum. apply andb_true_iff in Hnum. destruct Hnum as [Ha _].
  split; [discriminate|].
  apply trim_unspaced.
  - cbn. intros b Hb. inversion Hb; subst. now apply is_amount_char_not_space.
  - rewrite !rev_app_distr. cbn. intros b Hb. inversion Hb; reflexivity.
Qed.

(** ** Occurrences of a label *)

Lemma starts_with_app (p post : jsstring) : starts_with p (p ++ post) = true.
Proof.
  induction p as [|a p IH]; simpl; [reflexivity|].
  now rewrite N.eqb_refl, IH.
Qed.

Lemma occurs_in_complete (p : jsstring) :
  forall pre post, occurs_in p (pre ++ p ++ post) = true.
Proof.
  induction pre as [|x pre IH]; intros post.
  - simpl app. destruct (p ++ post) eqn:E; cbn [occurs_in];
      rewrite <- E, starts_with_app; reflexivity.
  - simpl app. cbn [occurs_in]. rewrite IH. apply orb_true_r.
Qed.

Lemma occurs_in_false (p text : jsstring) :
  occurs_in p text = false -> ~ occurs p text.
Proof.
  intros H (pre & post & ->). rewrite occurs_in_complete in H. discriminate.
Qed.

(** ** The extracted record *)

Lemma date_capture (text c : jsstring) :
  match1 PDF_EXTRACTION_PATTERNS.PAYMENT_DATE_TIME text = Some c ->
  receipt_date_format c /\ exists post, follows_label DATE_LABEL text c post.
Proof.
  intros H. apply labelled_capture in H. destruct H as (post & c1 & Hf & Hm).
  split; [|eauto]. eapply date_group_matches; eauto.
Qed.

Lemma amount_capture (text c : jsstring) :
  match1 PDF_EXTRACTION_PATTERNS.TOTAL_AMOUNT text = Some c ->
  receipt_amount_format c /\ exists post, follows_label AMOUNT_LABEL text c post.
Proof.
  intros H. apply labelled_capture in H. destruct H as (post & c1 & Hf & Hm).
  split; [|eauto]. eapply amount_group_matches; eauto.
Qed.

(** Once the pattern has matched, a [Date] is returned, whatever the
    constructor made of the text. *)
Lemma extractPaymentDateTime_captured (h : Host) (text c : jsstring) :
  match1 PDF_EXTRACTION_PATTERNS.PAYMENT_DATE_TIME text = Some c ->
  extractPaymentDateTime h text = Some (Date_parse h c).
Proof.
  intros H. unfold extractPaymentDateTime. rewrite H.
  destruct (date_capture _ _ H) as [Hfmt _].
  destruct (receipt_date_format_facts _ Hfmt) as (Hne & _ & Htrim).
  rewrite Htrim. destruct c; [congruence|reflexivity].
Qed.

(** An Invalid Date passes the presence check and the age check. *)
Lemma extractTransactionDetails_invalid_date (h : Host) (text : jsstring)
      (config : PaymentVerificationConfig) (ref : jsstring) :
  extractReferenceNumber text = Some ref ->
  extractPaymentDateTime h text = Some InvalidDate ->
  extractTransactionDetails h text config = Ok (extractedDetails h text).
Proof.
  intros Href Hdate. unfold extractTransactionDetails.
  cbn [extractedDetails transactionRefNumber paymentDateTime].
  rewrite Href, Hdate.
  assert (Ht : truthy ref = true).
  { unfold extractReferenceNumber in Href.
    destruct (option_map trim _) as [v|]; [|discriminate]. cbn [or_null] in Href.
    destruct (truthy v) eqn:Hv; [|discriminate]. congruence. }
  rewrite Ht. reflexivity.
Qed.

(** C3. The text after the label below has the shape of a date and is no
    date: the timestamp of the record is an Invalid Date, not absent, and
    the record passes validation with it. *)
Theorem extractPaymentDateTime_invalid_date :
  extractPaymentDateTime SampleHost.host
    (js "Payment Date & Time 13/45/2023, 2:30:45 PM") = Some InvalidDate
  /\ extractTransactionDetails SampleHost.host
       (js "Reference No. (VAT Invoice No) FT25200VMC5N" ++ [10%N]
        ++ js "Payment Date & Time 13/45/2023, 2:30:45 PM")
       SampleHost.config
     = Ok {| transactionRefNumber := Some (js "FT25200VMC5N");
             paymentDateTime := Some InvalidDate;
             totalAmountDebited := None;
             receiver := None;
             payer := None |}.
Proof. split; vm_compute; reflexivity. Qed.

(** C6, as stated, fails: the white space after a label may hold a line
    break, so the capture can come from the line below the label, and the
    white space inside the amount may hold one too. *)
Lemma capture_leaves_label_line :
  match1 PDF_EXTRACTION_PATTERNS.RECEIVER (js "Receiver" ++ [10%N] ++ js "John Doe")
  = Some (js "John Doe")
  /\ confined_to_label_line RECEIVER_LABEL (js "John Doe")
                            (js "Receiver" ++ [10%N] ++ js "John Doe") = false
  /\ match1 PDF_EXTRACTION_PATTERNS.TOTAL_AMOUNT
            (js "Total amount debited from customers account 1,500.00"
             ++ [10%N] ++ js "ETB")
     = Some (js "1,500.00" ++ [10%N] ++ js "ETB").
Proof. vm_compute. auto. Qed.

(** C6, amended. A capture stands after an occurrence of its label and
    the white space that follows it, which may include line breaks.  The
    captures of the reference, the receiver and the payer are non-empty,
    hold no line terminator and reach the end of their line; the capture
    of the date has the date format and holds no line terminator; the
    capture of the amount has the amount format.  A field whose label does
    not occur in the text is absent. *)
Theorem captures_follow_labels (h : Host) (text : jsstring) :
  (forall c, match1 PDF_EXTRACTION_PATTERNS.REFERENCE_NUMBER text = Some c ->
             line_capture REFERENCE_LABEL text c) /\
  (forall c, match1 PDF_EXTRACTION_PATTERNS.RECEIVER text = Some c ->
             line_capture RECEIVER_LABEL text c) /\
  (forall c, match1 PDF_EXTRACTION_PATTERNS.PAYER text = Some c ->
             line_capture PAYER_LABEL text c) /\
  (forall c, match1 PDF_EXTRACTION_PATTERNS.PAYMENT_DATE_TIME text = Some c ->
             receipt_date_format c /\ forallb is_dot c = true /\
             exists post, follows_label DATE_LABEL text c post) /\
  (forall c, match1 PDF_EXTRACTION_PATTERNS.TOTAL_AMOUNT text = Some c ->
             receipt_amount_format c /\
             exists post, follows_label AMOUNT_LABEL text c post) /\
  (occurs_in REFERENCE_LABEL text = false -> extractReferenceNumber text = None) /\
  (occurs_in DATE_LABEL text = false -> extractPaymentDateTime h text = None) /\
  (occurs_in AMOUNT_LABEL text = false -> extractTotalAmount text = None) /\
  (occurs_in RECEIVER_LABEL text = false -> extractReceiver text = None) /\
  (occurs_in PAYER_LABEL text = false -> extractPayer text = None).
Proof.
  repeat match goal with |- _ /\ _ => split end.
  - intros c H. now apply labelled_line_capture in H.
  - intros c H. now apply labelled_line_capture in H.
  - intros c H. now apply labelled_line_capture in H.
  - intros c H. destruct (date_capture _ _ H) as [Hfmt Hpost].
    destruct (receipt_date_format_facts _ Hfmt) as (_ & Hdot & _). auto.
  - intros c H. now apply amount_capture.
  - intros H. apply occurs_in_false in H. unfold extractReferenceNumber.
    assert (Hn : match1 PDF_EXTRACTION_PATTERNS.REFERENCE_NUMBER text = None)
      by (apply (labelled_absent "Reference No. (VAT Invoice No)"); exact H).
    now rewrite Hn.
  - intros H. apply occurs_in_false in H. unfold extractPaymentDateTime.
    assert (Hn : match1 PDF_EXTRACTION_PATTERNS.PAYMENT_DATE_TIME text = None)
      by (apply (labelled_absent "Payment Date & Time"); exact H).
    now rewrite Hn.
  - intros H. apply occurs_in_false in H. unfold extractTotalAmount.
    assert (Hn : match1 PDF_EXTRACTION_PATTERNS.TOTAL_AMOUNT text = None)
      by (apply (labelled_absent "Total amount debited from customers account"); exact H).
    now rewrite Hn.
  - intros H. apply occurs_in_false in H. unfold extractReceiver.
    assert (Hn : match1 PDF_EXTRACTION_PATTERNS.RECEIVER text = None)
      by (apply (labelled_absent "Receiver"); exact H).
    now rewrite Hn.
  - intros H. apply occurs_in_false in H. unfold extractPayer.
    assert (Hn : match1 PDF_EXTRACTION_PATTERNS.PAYER text = None)
      by (apply (labelled_absent "Payer"); exact H).
    now rewrite Hn.
Qed.

Lemma captures_follow_labels_witness :
  line_capture RECEIVER_LABEL (js "Receiver" ++ [10%N] ++ js "John Doe") (js "John Doe")
  /\ extractPayer (js "Receiver" ++ [10%N] ++ js "John Doe") = None.
Proof.
  split.
  - apply (proj1 (proj2 (captures_follow_labels
                           SampleHost.host (js "Receiver" ++ [10%N] ++ js "John Doe")))).
    vm_compute. reflexivity.
  - apply (proj2 (proj2 (proj2 (proj2 (proj2 (proj2 (proj2 (proj2 (proj2
             (captures_follow_labels
                SampleHost.host (js "Receiver" ++ [10%N] ++ js "John Doe"))))))))))).
    vm_compute. reflexivity.
Defined.

Lemma extractTransactionDetails_returns (h : Host) (text : jsstring)
      (config : PaymentVerificationConfig) (d : TransactionDetails) :
  extractTransactionDetails h text config = Ok d -> d = extractedDetails h text.
Proof.
  unfold extractTransactionDetails.
  destruct (transactionRefNumber (extractedDetails h text)) as [ref|]; [|discriminate].
  destruct (negb (truthy ref)); [discriminate|].
  destruct (paymentDateTime (extractedDetails h text)) as [dt|]; [|discriminate].
  destruct (validateTransactionAge h dt _); [|discriminate].
  intros H. inversion H. reflexivity.
Qed.

(** C8. In the record built from a text, and so in the record that
    [extractTransactionDetails] returns, the reference, the amount, the
    receiver and the payer are each absent or a non-empty string that
    neither starts nor ends with white space.  A reference, receiver or
    payer whose capture trims to the empty string is absent; the capture
    of an amount never does, and is the field as it stands. *)
Theorem extracted_strings_trimmed (h : Host) (text : jsstring) :
  strings_trimmed (extractedDetails h text) /\
  (forall config d, extractTransactionDetails h text config = Ok d ->
                    strings_trimmed d) /\
  (forall c, match1 PDF_EXTRACTION_PATTERNS.REFERENCE_NUMBER text = Some c ->
             trim c = [] ->
             transactionRefNumber (extractedDetails h text) = None) /\
  (forall c, match1 PDF_EXTRACTION_PATTERNS.RECEIVER text = Some c ->
             trim c = [] ->
             receiver (extractedDetails h text) = None) /\
  (forall c, match1 PDF_EXTRACTION_PATTERNS.PAYER text = Some c ->
             trim c = [] ->
             payer (extractedDetails h text) = None) /\
  (forall c, match1 PDF_EXTRACTION_PATTERNS.TOTAL_AMOUNT text = Some c ->
             totalAmountDebited (extractedDetails h text) = Some c).
Proof.
  assert (Hd : strings_trimmed (extractedDetails h text)).
  { repeat split; apply or_null_trim. }
  split; [exact Hd|]. split; [|split; [|split; [|split]]].
  - intros config d H. apply extractTransactionDetails_returns in H. now subst.
  - intros c Hc Ht. cbn. unfold extractReferenceNumber.
    now apply or_null_trim_empty with (c := c).
  - intros c Hc Ht. cbn. unfold extractReceiver.
    now apply or_null_trim_empty with (c := c).
  - intros c Hc Ht. cbn. unfold extractPayer.
    now apply or_null_trim_empty with (c := c).
  - intros c Hc. cbn. unfold extractTotalAmount. rewrite Hc. cbn [option_map or_null].
    destruct (amount_capture _ _ Hc) as [Hfmt _].
    destruct (receipt_amount_format_facts _ Hfmt) as [Hne Htrim].
    rewrite Htrim. destruct c; [congruence|reflexivity].
Qed.

Lemma extracted_strings_trimmed_witness :
  receiver (extractedDetails SampleHost.host (js "Receiver   ")) = None
  /\ strings_trimmed
       {| transactionRefNumber := Some (js "FT25200VMC5N");
          paymentDateTime := Some (ValidDate 1703514645000);
          totalAmountDebited := Some (js "1,500.00 ETB");
          receiver := Some (js "ACME Corporation Ltd");
          payer := Some (js "John Doe") |}.
Proof.
  split.
  - apply (proj1 (proj2 (proj2 (proj2 (extracted_strings_trimmed
                                         SampleHost.host (js "Receiver   ")))))
             [32%N]).
    + vm_compute. reflexivity.
    + vm_compute. reflexivity.
  - apply (proj1 (proj2 (extracted_strings_trimmed
                           SampleHost.host SampleHost.receipt_text))
             SampleHost.config).
    vm_compute. reflexivity.
Defined.

(** * Further properties *)

(** ** The account number validator *)

Lemma test_anchored_iff (r : regex) (s : jsstring) :
  test_anchored r s = true <-> exists c', matches r None s c'.
Proof.
  unfold test_anchored. rewrite existsb_exists. split.
  - intros ([c' rest] & Hin & Hrest). cbn [snd] in Hrest.
    destruct rest; [|discriminate].
    apply run_sound in Hin. destruct Hin as (w & Hs & Hm).
    rewrite app_nil_r in Hs. subst w. eauto.
  - intros (c' & Hm). exists (c', []). split; [|reflexivity].
    apply run_complete with (rest := []) in Hm. now rewrite app_nil_r in Hm.
Qed.

(** X1. [isValidCbeAccountNumber] holds exactly of the strings of 8 or
    more characters that are all decimal digits; it is false of every
    value that is not a string. *)
Theorem isValidCbeAccountNumber_iff (v : JSValue) :
  isValidCbeAccountNumber v = true <->
  exists s, v = VString s /\ (8 <= List.length s)%nat /\ forallb is_digit s = true.
Proof.
  unfold isValidCbeAccountNumber. rewrite !andb_true_iff, test_anchored_iff. split.
  - intros [[Hstr Hlen] (c' & Hm)].
    destruct v; try discriminate. cbn [string_of] in *.
    unfold digit in Hm. apply matches_plus_Cls_iff in Hm.
    destruct Hm as (_ & Hall & _). apply Nat.leb_le in Hlen. eauto.
  - intros (s & -> & Hlen & Hall). cbn [is_string string_of].
    repeat split.
    + now apply Nat.leb_le.
    + exists None. unfold digit. apply matches_plus_Cls_iff.
      repeat split; auto. destruct s; [simpl in Hlen; lia|discriminate].
Qed.

Lemma isValidCbeAccountNumber_iff_witness :
  isValidCbeAccountNumber (VString (js "1000188961473")) = true
  /\ ~ (exists s, VNumber 12345678 = VString s /\ (8 <= List.length s)%nat
                  /\ forallb is_digit s = true).
Proof.
  split.
  - apply (proj2 (isValidCbeAccountNumber_iff (VString (js "1000188961473")))).
    exists (js "1000188961473"). repeat split. vm_compute. lia.
  - intros H. apply (proj2 (isValidCbeAccountNumber_iff (VNumber 12345678))) in H.
    vm_compute in H. discriminate.
Defined.

(** Cases of [test/payment-verifier.test.ts]. *)
Example isValidCbeAccountNumber_cases :
  List.map isValidCbeAccountNumber
           [VString (js "12345678"); VString (js "123456789012");
            VString (js "00012345678"); VString (js "1234567");
            VString (js "12345abc"); VString (js ""); VString (js "123-456-78");
            VNumber 12345678; VNull; VUndefined]
  = [true; true; true; false; false; false; false; false; false; false].
Proof. vm_compute. reflexivity. Qed.

(** ** What [validateInput] accepts *)

Lemma url_head_ends_with_FT (x y z : N) :
  url_head x y z
  = (js "https://apps" ++ [x] ++ js "cbe" ++ [y] ++ js "com" ++ [z]
     ++ js "et:100/?id=") ++ js "FT".
Proof. unfold url_head. rewrite <- !app_assoc. reflexivity. Qed.

Lemma url_head_length (x y z : N) : List.length (url_head x y z) = 34%nat.
Proof. reflexivity. Qed.

(** A string that holds a receipt URL holds a reference code: the first
    10 of the 18 characters after [FT]. *)
Lemma url_shaped_is_reference_shaped (s : jsstring) :
  test TRANSACTION_URL_REGEX s = true -> test TRANSACTION_REFERENCE_REGEX s = true.
Proof.
  intros H. apply url_test_iff in H.
  destruct H as (pre & x & y & z & t & post & -> & _ & _ & _ & Hlen & Halnum).
  apply reference_test_iff.
  exists (pre ++ js "https://apps" ++ [x] ++ js "cbe" ++ [y] ++ js "com" ++ [z]
          ++ js "et:100/?id="),
         (firstn 10 t), (skipn 10 t ++ post).
  split; [|split].
  - unfold url_text. rewrite url_head_ends_with_FT.
    rewrite <- (firstn_skipn 10 t) at 1. rewrite <- !app_assoc. reflexivity.
  - rewrite length_firstn. lia.
  - now apply forallb_firstn.
Qed.

(** X2. [validateInput] accepts a string exactly when it contains the
    letters [FT] followed by 10 alphanumeric characters, with any text
    around them: the test of the URL pattern never decides, since a string
    that holds a receipt URL holds a reference code too. *)
Theorem validateInput_accepts_iff (s : jsstring) :
  validateInput (VString s) = Ok tt <->
  exists pre t post,
    s = pre ++ (js "FT" ++ t) ++ post /\
    List.length t = 10%nat /\ forallb is_alnum t = true.
Proof.
  rewrite <- reference_test_iff. split.
  - intros H. apply validateInput_ok in H. destruct H as [_ [H|H]]; auto.
    now apply url_shaped_is_reference_shaped.
  - intros H. rewrite validateInput_string, H.
    destruct s; [vm_compute in H; discriminate|reflexivity].
Qed.

Lemma validateInput_accepts_iff_witness :
  validateInput (VString (js "see FT25200VMC5N, paid")) = Ok tt
  /\ exists pre t post,
       js "https://apps.cbe.com.et:100/?id=FT25200VMC5N56279011"
       = pre ++ (js "FT" ++ t) ++ post /\
       List.length t = 10%nat /\ forallb is_alnum t = true.
Proof.
  split.
  - apply (proj2 (validateInput_accepts_iff (js "see FT25200VMC5N, paid"))).
    exists (js "see "), (js "25200VMC5N"), (js ", paid").
    repeat split.
  - apply (proj1 (validateInput_accepts_iff
                    (js "https://apps.cbe.com.et:100/?id=FT25200VMC5N56279011"))).
    vm_compute. reflexivity.
Defined.

(** ** What [constructPdfUrl] returns *)

Lemma constructPdfUrl_on_valid (s accountNumber : jsstring) :
  validateInput (VString s) = Ok tt ->
  exists url, constructPdfUrl s accountNumber = Ok url.
Proof.
  intros H. apply validateInput_ok in H. destruct H as [_ H].
  unfold constructPdfUrl.
  destruct (test TRANSACTION_URL_REGEX s) eqn:Hu; [eauto|].
  destruct H as [H|H]; [discriminate|]. rewrite H. eauto.
Qed.

(** X3. [constructPdfUrl] returns a URL for every input that
    [validateInput] accepts, whatever the account number; when it throws,
    the error is the unable-to-construct one and [validateInput] does not
    accept the input.  So in [verifyDirectDeposit], where it runs after
    [validateInput], its [throw] is never reached. *)
Theorem constructPdfUrl_total_on_valid (s accountNumber : jsstring) :
  (validateInput (VString s) = Ok tt ->
   exists url, constructPdfUrl s accountNumber = Ok url) /\
  (forall e, constructPdfUrl s accountNumber = Throw e ->
             e = UnableToConstructUrl /\ validateInput (VString s) <> Ok tt).
Proof.
  split.
  - apply constructPdfUrl_on_valid.
  - intros e H. unfold constructPdfUrl in H.
    destruct (test TRANSACTION_URL_REGEX s) eqn:Hu; [discriminate|].
    destruct (test TRANSACTION_REFERENCE_REGEX s) eqn:Hr; [discriminate|].
    inversion H. split; [reflexivity|].
    intros Hok. apply validateInput_ok in Hok. destruct Hok as [_ [Hc|Hc]]; congruence.
Qed.

Lemma constructPdfUrl_total_on_valid_witness :
  (exists url, constructPdfUrl (js "see FT25200VMC5N, paid") (js "12") = Ok url)
  /\ validateInput (VString (js "invalid-input-123!")) <> Ok tt.
Proof.
  split.
  - apply (proj1 (constructPdfUrl_total_on_valid (js "see FT25200VMC5N, paid") (js "12"))).
    vm_compute. reflexivity.
  - apply (proj2 (constructPdfUrl_total_on_valid (js "invalid-input-123!") (js "12"))
             UnableToConstructUrl).
    vm_compute. reflexivity.
Defined.

Lemma without_last_app (n : nat) (l a : jsstring) :
  List.length a = n -> without_last n (l ++ a) = l.
Proof.
  intros H. unfold without_last. rewrite <- H. apply firstn_app_exact.
Qed.

Lemma url_shaped_length (s : jsstring) :
  test TRANSACTION_URL_REGEX s = true -> (52 <= List.length s)%nat.
Proof.
  intros H. apply url_test_iff in H.
  destruct H as (pre & x & y & z & t & post & -> & _ & _ & _ & Hlen & _).
  unfold url_text. rewrite !length_app, url_head_length. lia.
Qed.

(** X4. From a bare reference code ([FT] and 10 alphanumeric characters)
    and an account number of at least 8 characters whose last 8 are
    alphanumeric, [constructPdfUrl] builds a URL that conforms, as a whole
    string, to the URL shape.  Building again from that URL with the same
    account number gives the same URL, and with any other account number
    gives what the reference code gives with that account number. *)
Theorem constructPdfUrl_from_reference (r accountNumber : jsstring) :
  List.length r = 10%nat -> forallb is_alnum r = true ->
  (8 <= List.length accountNumber)%nat ->
  forallb is_alnum (last_chars 8 accountNumber) = true ->
  exists url,
    constructPdfUrl (js "FT" ++ r) accountNumber = Ok url /\
    url = CBE_VERIFICATION_BASE_URL ++ js "/?id=" ++ (js "FT" ++ r)
          ++ last_chars 8 accountNumber /\
    conforms_to_url_shape url /\
    constructPdfUrl url accountNumber = Ok url /\
    (forall other, constructPdfUrl url other = constructPdfUrl (js "FT" ++ r) other).
Proof.
  intros Hr Hralnum Hlen Ha.
  assert (Hnu : test TRANSACTION_URL_REGEX (js "FT" ++ r) = false).
  { destruct (test TRANSACTION_URL_REGEX (js "FT" ++ r)) eqn:E; [|reflexivity].
    apply url_shaped_length in E. rewrite length_app, Hr in E. simpl in E. lia. }
  assert (Href : test TRANSACTION_REFERENCE_REGEX (js "FT" ++ r) = true).
  { apply reference_test_iff. exists [], r, []. rewrite app_nil_r. auto. }
  assert (Hbuild : forall other,
             constructPdfUrl (js "FT" ++ r) other
             = Ok (CBE_VERIFICATION_BASE_URL ++ js "/?id=" ++ (js "FT" ++ r)
                   ++ last_chars 8 other)).
  { intros other. now apply constructPdfUrl_reference. }
  set (a8 := last_chars 8 accountNumber) in *.
  assert (Ha8 : List.length a8 = 8%nat) by now apply last_chars_length.
  set (url := CBE_VERIFICATION_BASE_URL ++ js "/?id=" ++ (js "FT" ++ r) ++ a8).
  assert (Hshape : url = url_text 46 46 46 (r ++ a8)).
  { unfold url, url_text. rewrite <- !app_assoc. reflexivity. }
  assert (Hu : test TRANSACTION_URL_REGEX url = true).
  { apply url_test_iff. exists [], 46%N, 46%N, 46%N, (r ++ a8), [].
    rewrite app_nil_r, Hshape. repeat split.
    - rewrite length_app. lia.
    - rewrite forallb_app, Hralnum. exact Ha. }
  assert (Hre : forall other,
             constructPdfUrl url other = constructPdfUrl (js "FT" ++ r) other).
  { intros other. rewrite Hbuild, (constructPdfUrl_url url other Hu). f_equal.
    assert (Hwl : without_last 8 url
                  = CBE_VERIFICATION_BASE_URL ++ js "/?id=" ++ js "FT" ++ r).
    { unfold url. rewrite <- !app_assoc.
      rewrite 3 app_assoc. now apply without_last_app. }
    rewrite Hwl, <- !app_assoc. reflexivity. }
  exists url. split; [apply Hbuild|]. split; [reflexivity|]. split; [|split].
  - exists (r ++ a8). split; [|split].
    + unfold url. rewrite <- !app_assoc. reflexivity.
    + rewrite length_app. lia.
    + rewrite forallb_app, Hralnum. exact Ha.
  - rewrite Hre. apply Hbuild.
  - exact Hre.
Qed.

Lemma constructPdfUrl_from_reference_witness :
  exists url,
    constructPdfUrl (js "FT" ++ js "0123456789") (js "12345678") = Ok url /\
    url = CBE_VERIFICATION_BASE_URL ++ js "/?id=" ++ (js "FT" ++ js "0123456789")
          ++ last_chars 8 (js "12345678") /\
    conforms_to_url_shape url /\
    constructPdfUrl url (js "12345678") = Ok url /\
    (forall other,
        constructPdfUrl url other = constructPdfUrl (js "FT" ++ js "0123456789") other).
Proof.
  apply constructPdfUrl_from_reference.
  - reflexivity.
  - reflexivity.
  - vm_compute. lia.
  - reflexivity.
Defined.

(** ** The record that [extractTransactionDetails] returns *)

Lemma extractReferenceNumber_trimmed (text ref : jsstring) :
  extractReferenceNumber text = Some ref -> trimmed ref.
Proof.
  intros H. pose proof (or_null_trim
    (match1 PDF_EXTRACTION_PATTERNS.REFERENCE_NUMBER text)) as Ht.
  unfold extractReferenceNumber in H. rewrite H in Ht. exact Ht.
Qed.

Lemma validateTransactionAge_ok_age (h : Host) (t : Z) (m : Q) :
  validateTransactionAge h (ValidDate t) m = Ok tt ->
  (inject_Z (Z.quot (clock h - t) MILLISECONDS_A_HOUR) <= m)%Q.
Proof.
  intros H. apply Qnot_lt_le. intros Hlt.
  rewrite (validateTransactionAge_too_old h t m Hlt) in H. discriminate.
Qed.

Lemma extractTransactionDetails_present (h : Host) (text : jsstring)
      (config : PaymentVerificationConfig) (d : TransactionDetails) :
  extractTransactionDetails h text config = Ok d ->
  exists ref dt,
    extractReferenceNumber text = Some ref /\
    extractPaymentDateTime h text = Some dt /\
    validateTransactionAge h dt (effective_max_age config) = Ok tt.
Proof.
  unfold extractTransactionDetails, effective_max_age.
  cbn [extractedDetails transactionRefNumber paymentDateTime].
  destruct (extractReferenceNumber text) as [ref|]; [|discriminate].
  destruct (negb (truthy ref)); [discriminate|].
  destruct (extractPaymentDateTime h text) as [dt|]; [|discriminate].
  destruct (validateTransactionAge h dt _) as [[]|] eqn:Hage; [|discriminate].
  intros _. eauto.
Qed.



(** X6. A text in which the reference label does not occur makes
    [extractTransactionDetails] throw the missing-reference error,
    whatever the rest of the text and the configuration: the reference is
    checked before the timestamp and its age. *)
Theorem extractTransactionDetails_no_reference (h : Host) (text : jsstring)
        (config : PaymentVerificationConfig) :
  occurs_in REFERENCE_LABEL text = false ->
  extractTransactionDetails h text config = Throw MissingReferenceNumber.
Proof.
  intros H. apply occurs_in_false in H.
  assert (Hn : match1 PDF_EXTRACTION_PATTERNS.REFERENCE_NUMBER text = None)
    by (apply (labelled_absent "Reference No. (VAT Invoice No)"); exact H).
  unfold extractTransactionDetails.
  cbn [extractedDetails transactionRefNumber]. unfold extractReferenceNumber.
  now rewrite Hn.
Qed.

Lemma extractTransactionDetails_no_reference_witness :
  extractTransactionDetails SampleHost.host
    (js "Payment Date & Time 12/25/2023, 2:30:45 PM" ++ [10%N]
     ++ js "Total amount debited from customers account 1,500.00 ETB")
    SampleHost.config
  = Throw MissingReferenceNumber.
Proof.
  apply extractTransactionDetails_no_reference. vm_compute. reflexivity.
Defined.

(** X7. A text from which a reference is extracted and in which the date
    label does not occur makes [extractTransactionDetails] throw the
    missing-timestamp error. *)
Theorem extractTransactionDetails_no_date (h : Host) (text ref : jsstring)
        (config : PaymentVerificationConfig) :
  extractReferenceNumber text = Some ref ->
  occurs_in DATE_LABEL text = false ->
  extractTransactionDetails h text config = Throw MissingPaymentTimestamp.
Proof.
  intros Href H. apply occurs_in_false in H.
  assert (Hn : match1 PDF_EXTRACTION_PATTERNS.PAYMENT_DATE_TIME text = None)
    by (apply (labelled_absent "Payment Date & Time"); exact H).
  destruct (extractReferenceNumber_trimmed _ _ Href) as [Hne _].
  unfold extractTransactionDetails.
  cbn [extractedDetails transactionRefNumber paymentDateTime].
  rewrite Href. unfold extractPaymentDateTime. rewrite Hn.
  destruct ref; [congruence|reflexivity].
Qed.

Lemma extractTransactionDetails_no_date_witness :
  extractTransactionDetails SampleHost.host
    (js "Reference No. (VAT Invoice No)   TXN123456789" ++ [10%N]
     ++ js "Total amount debited from customers account 1,500.00 ETB")
    SampleHost.config
  = Throw MissingPaymentTimestamp.
Proof.
  apply (extractTransactionDetails_no_date SampleHost.host _ (js "TXN123456789")).
  - vm_compute. reflexivity.
  - vm_compute. reflexivity.
Defined.

(** ** The age check as the limit and the clock move *)

Lemma validateTransactionAge_invalid (h : Host) (m : Q) :
  validateTransactionAge h InvalidDate m = Ok tt.
Proof. reflexivity. Qed.

(** X8. The age check is monotone: a timestamp accepted under a limit is
    accepted under every larger limit, and a timestamp rejected at one
    reading of the clock is rejected at every later reading. *)
Theorem validateTransactionAge_monotone (h : Host) (d : Date) (m : Q) :
  (forall m' : Q, (m <= m')%Q ->
                  validateTransactionAge h d m = Ok tt ->
                  validateTransactionAge h d m' = Ok tt) /\
  (forall (h' : Host) (e : error),
      (clock h <= clock h')%Z ->
      validateTransactionAge h d m = Throw e ->
      exists age, (m < inject_Z age)%Q /\
                  validateTransactionAge h' d m = Throw (TransactionTooOld m age)).
Proof.
  split.
  - intros m' Hle H. destruct d as [t|]; [|reflexivity].
    apply validateTransactionAge_fresh.
    eapply Qle_trans; [|exact Hle]. now apply validateTransactionAge_ok_age.
  - intros h' e Hclock H. destruct d as [t|]; [|discriminate].
    exists (Z.quot (clock h' - t) MILLISECONDS_A_HOUR).
    assert (Hlt : (m < inject_Z (Z.quot (clock h' - t) MILLISECONDS_A_HOUR))%Q).
    { apply Qlt_le_trans
        with (y := inject_Z (Z.quot (clock h - t) MILLISECONDS_A_HOUR)).
      - apply Qnot_le_lt. intros Hle.
        rewrite (validateTransactionAge_fresh h t m Hle) in H. discriminate.
      - rewrite <- Zle_Qle. apply Z.quot_le_mono; unfold MILLISECONDS_A_HOUR; lia. }
    split; [exact Hlt|]. now apply validateTransactionAge_too_old.
Qed.

Lemma validateTransactionAge_monotone_witness :
  validateTransactionAge SampleHost.host
    (ValidDate (clock SampleHost.host - 25 * MILLISECONDS_A_HOUR)) 48 = Ok tt
  /\ exists age,
       (24 < inject_Z age)%Q /\
       validateTransactionAge
         {| clock := clock SampleHost.host + 1;
            Date_parse := Date_parse SampleHost.host;
            extractTextFromPdfUrl := extractTextFromPdfUrl SampleHost.host |}
         (ValidDate (clock SampleHost.host - 25 * MILLISECONDS_A_HOUR)) 24
       = Throw (TransactionTooOld 24 age).
Proof.
  split.
  - apply (proj1 (validateTransactionAge_monotone SampleHost.host
             (ValidDate (clock SampleHost.host - 25 * MILLISECONDS_A_HOUR)) 25) 48).
    + vm_compute. discriminate.
    + vm_compute. reflexivity.
  - apply (proj2 (validateTransactionAge_monotone SampleHost.host
             (ValidDate (clock SampleHost.host - 25 * MILLISECONDS_A_HOUR)) 24)
             _ (TransactionTooOld 24 25)).
    + simpl. lia.
    + vm_compute. reflexivity.
Defined.

(** ** The outcomes of [verifyDirectDeposit] *)

Lemma verifyDirectDeposit_cases (h : Host) (input : JSValue)
      (config : PaymentVerificationConfig) (log : list request) :
  verifyDirectDeposit h input config log =
  match validateInput input with
  | Throw e => (Throw e, log)
  | Ok _ =>
      if negb (truthy (cbeAccountNumber config)) then (Throw MissingAccountNumber, log)
      else
        match constructPdfUrl (string_of input) (cbeAccountNumber config) with
        | Throw e => (Throw e, log)
        | Ok url =>
            (match extractTextFromPdfUrl h url config with
             | Ok pdfText => extractTransactionDetails h pdfText config
             | Throw e => Throw e
             end,
             log ++ [(url, config)])
        end
  end.
Proof.
  unfold verifyDirectDeposit, bind, lift, rethrow, await_extractTextFromPdfUrl, ret, throw.
  destruct (validateInput input); [|reflexivity].
  destruct (negb (truthy (cbeAccountNumber config))); [reflexivity|].
  destruct (constructPdfUrl _ _) as [url|e]; [|reflexivity].
  destruct (extractTextFromPdfUrl h url config) as [pdfText|e]; [|reflexivity].
  destruct (extractTransactionDetails h pdfText config); reflexivity.
Qed.

Lemma validateInput_ok_string (input : JSValue) :
  validateInput input = Ok tt -> exists s, input = VString s.
Proof.
  intros H. destruct input; try (vm_compute in H; discriminate).
  - unfold validateInput in H. cbn [is_string negb] in H.
    rewrite orb_true_r in H. discriminate.
  - unfold validateInput in H. cbn [is_string negb] in H.
    rewrite orb_true_r in H. discriminate.
  - eauto.
Qed.

(** X9. [verifyDirectDeposit] checks the input before the account number:
    an input that [validateInput] rejects fails with that error even when
    the account number is empty too, and an accepted input with an empty
    account number fails with the missing-account error.  In both cases
    the PDF extractor is not called. *)
Theorem verifyDirectDeposit_gates (h : Host) (input : JSValue)
        (config : PaymentVerificationConfig) (log : list request) :
  (forall e, validateInput input = Throw e ->
             verifyDirectDeposit h input config log = (Throw e, log)) /\
  (validateInput input = Ok tt -> cbeAccountNumber config = [] ->
   verifyDirectDeposit h input config log = (Throw MissingAccountNumber, log)).
Proof.
  rewrite verifyDirectDeposit_cases. split.
  - intros e ->. reflexivity.
  - intros -> ->. reflexivity.
Qed.

Lemma verifyDirectDeposit_gates_witness :
  verifyDirectDeposit SampleHost.host (VString (js "invalid-input-123!"))
    {| cbeAccountNumber := [];
       maxTransactionAgeHours := Some 24;
       rejectUnauthorized := Some false |} []
  = (Throw InvalidInputFormat, [])
  /\ verifyDirectDeposit SampleHost.host (VString (js "FT25200VMC5N56279011"))
       {| cbeAccountNumber := [];
          maxTransactionAgeHours := Some 24;
          rejectUnauthorized := Some false |} []
     = (Throw MissingAccountNumber, []).
Proof.
  split.
  - apply (proj1 (verifyDirectDeposit_gates SampleHost.host
                    (VString (js "invalid-input-123!")) _ [])).
    vm_compute. reflexivity.
  - apply (proj2 (verifyDirectDeposit_gates SampleHost.host
                    (VString (js "FT25200VMC5N56279011")) _ [])).
    + vm_compute. reflexivity.
    + reflexivity.
Defined.

(** X10. With an accepted input and a non-empty account number,
    [verifyDirectDeposit] calls the PDF extractor exactly once, on the URL
    that [constructPdfUrl] builds and with the caller's configuration as
    it is.  An error of the extractor is the result, unchanged, and the
    parser does not run; a text goes to [extractTransactionDetails], whose
    record or error is the result. *)
Theorem verifyDirectDeposit_fetches_once (h : Host) (input : JSValue)
        (config : PaymentVerificationConfig) (log : list request) :
  validateInput input = Ok tt -> cbeAccountNumber config <> [] ->
  exists url,
    constructPdfUrl (string_of input) (cbeAccountNumber config) = Ok url /\
    snd (verifyDirectDeposit h input config log) = log ++ [(url, config)] /\
    (forall e, extractTextFromPdfUrl h url config = Throw e ->
               fst (verifyDirectDeposit h input config log) = Throw e) /\
    (forall pdfText, extractTextFromPdfUrl h url config = Ok pdfText ->
                     fst (verifyDirectDeposit h input config log)
                     = extractTransactionDetails h pdfText config).
Proof.
  intros Hin Hacct.
  destruct (validateInput_ok_string _ Hin) as [s ->].
  destruct (constructPdfUrl_on_valid s (cbeAccountNumber config) Hin) as [url Hurl].
  exists url. split; [exact Hurl|].
  rewrite verifyDirectDeposit_cases, Hin. cbn [string_of]. rewrite Hurl.
  destruct (cbeAccountNumber config); [congruence|]. cbn [truthy negb].
  repeat split.
  - intros e ->. reflexivity.
  - intros pdfText ->. reflexivity.
Qed.

Lemma verifyDirectDeposit_fetches_once_witness :
  exists url,
    constructPdfUrl (string_of (VString (js "FT25200VMC5N56279011")))
                    (cbeAccountNumber SampleHost.config) = Ok url /\
    snd (verifyDirectDeposit SampleHost.host (VString (js "FT25200VMC5N56279011"))
                             SampleHost.config [])
    = [] ++ [(url, SampleHost.config)] /\
    (forall e, extractTextFromPdfUrl SampleHost.host url SampleHost.config = Throw e ->
               fst (verifyDirectDeposit SampleHost.host
                      (VString (js "FT25200VMC5N56279011")) SampleHost.config [])
               = Throw e) /\
    (forall pdfText,
        extractTextFromPdfUrl SampleHost.host url SampleHost.config = Ok pdfText ->
        fst (verifyDirectDeposit SampleHost.host
               (VString (js "FT25200VMC5N56279011")) SampleHost.config [])
        = extractTransactionDetails SampleHost.host pdfText SampleHost.config).
Proof.
  apply verifyDirectDeposit_fetches_once.
  - vm_compute. reflexivity.
  - discriminate.
Defined.

(** X11. When [verifyDirectDeposit] returns a record, the PDF extractor
    was called exactly once, it returned a text, and the record is the one
    built from that text, with its reference and its timestamp present:
    no record comes from anything but a fetched receipt. *)
Theorem verifyDirectDeposit_ok (h : Host) (input : JSValue)
        (config : PaymentVerificationConfig) (log log' : list request)
        (d : TransactionDetails) :
  verifyDirectDeposit h input config log = (Ok d, log') ->
  exists s url pdfText ref dt,
    input = VString s /\
    constructPdfUrl s (cbeAccountNumber config) = Ok url /\
    log' = log ++ [(url, config)] /\
    extractTextFromPdfUrl h url config = Ok pdfText /\
    d = extractedDetails h pdfText /\
    transactionRefNumber d = Some ref /\ ref <> [] /\
    paymentDateTime d = Some dt.
Proof.
  rewrite verifyDirectDeposit_cases. intros H.
  destruct (validateInput input) as [[]|e] eqn:Hin; [|discriminate].
  destruct (validateInput_ok_string _ Hin) as [s ->]. cbn [string_of] in H.
  destruct (negb (truthy (cbeAccountNumber config))); [discriminate|].
  destruct (constructPdfUrl s (cbeAccountNumber config)) as [url|e] eqn:Hurl;
    [|discriminate].
  destruct (extractTextFromPdfUrl h url config) as [pdfText|e] eqn:Hfetch;
    [|discriminate].
  inversion H as [[Hd Hlog]]. clear H.
  pose proof (extractTransactionDetails_returns _ _ _ _ Hd) as Heq.
  destruct (extractTransactionDetails_present _ _ _ _ Hd) as (ref & dt & Href & Hdt & _).
  destruct (extractReferenceNumber_trimmed _ _ Href) as [Hne _].
  exists s, url, pdfText, ref, dt. subst d. repeat split; auto.
Qed.

Lemma verifyDirectDeposit_ok_witness :
  exists s url pdfText ref dt,
    VString (js "FT25200VMC5N56279011") = VString s /\
    constructPdfUrl s (cbeAccountNumber SampleHost.config) = Ok url /\
    snd (verifyDirectDeposit SampleHost.host (VString (js "FT25200VMC5N56279011"))
                             SampleHost.config [])
    = [] ++ [(url, SampleHost.config)] /\
    extractTextFromPdfUrl SampleHost.host url SampleHost.config = Ok pdfText /\
    extractedDetails SampleHost.host SampleHost.receipt_text
    = extractedDetails SampleHost.host pdfText /\
    transactionRefNumber (extractedDetails SampleHost.host SampleHost.receipt_text)
    = Some ref /\ ref <> [] /\
    paymentDateTime (extractedDetails SampleHost.host SampleHost.receipt_text)
    = Some dt.
Proof.
  apply (verifyDirectDeposit_ok SampleHost.host (VString (js "FT25200VMC5N56279011"))
                                SampleHost.config []).
  vm_compute. reflexivity.
Defined.

(** ** Recovering a value from its line *)

Lemma run_lit_list_Seq (L : jsstring) (b : regex) :
  forall c s,
    run (Seq (lit_list L) b) c s
    = if starts_with L s then run b c (skipn (List.length L) s) else [].
Proof.
  induction L as [|a L IH]; intros c s.
  - cbn. destruct s; cbn; now rewrite app_nil_r.
  - cbn [lit_list]. cbn [run]. unfold chr. cbn [run].
    destruct s as [|x s]; [reflexivity|]. cbn [starts_with List.length skipn].
    destruct (N.eqb a x); [|reflexivity].
    cbn [flat_map fst snd andb]. rewrite app_nil_r.
    specialize (IH c s). cbn [run] in IH. exact IH.
Qed.

Lemma index_of_eq (p s : jsstring) :
  index_of p s =
  if starts_with p s then Some 0%nat
  else match s with
       | [] => None
       | _ :: s' => option_map S (index_of p s')
       end.
Proof. destruct s; reflexivity. Qed.

(** [exec] skips the positions before the first occurrence of the label
    and takes the first state there, when there is one. *)
Lemma exec_from_first_label (L : jsstring) (b : regex) :
  forall text n i st l,
    index_of L text = Some n ->
    run b None (skipn (n + List.length L) text) = st :: l ->
    exists m, exec_from (Seq (lit_list L) b) i text = Some m /\ group1 m = fst st.
Proof.
  induction text as [|x text IH]; intros n i st l Hidx Hrun;
    rewrite index_of_eq in Hidx; rewrite exec_from_eq, run_lit_list_Seq.
  - destruct (starts_with L []) eqn:Hs; [|discriminate].
    inversion Hidx; subst n. cbn [Nat.add] in Hrun. rewrite Hrun.
    eexists. split; reflexivity.
  - destruct (starts_with L (x :: text)) eqn:Hs.
    + inversion Hidx; subst n. cbn [Nat.add] in Hrun. rewrite Hrun.
      eexists. split; reflexivity.
    + destruct (index_of L text) as [n'|] eqn:Hn'; [|discriminate].
      inversion Hidx; subst n. cbn [Nat.add skipn] in Hrun.
      apply (IH n' (S i) st l eq_refl Hrun).
Qed.

Lemma dropWhile_app_all (p : N -> bool) (ws s : jsstring) :
  forallb p ws = true -> dropWhile p (ws ++ s) = dropWhile p s.
Proof.
  induction ws as [|a ws IH]; simpl; intros H; [reflexivity|].
  apply andb_true_iff in H. destruct H as [Ha Hws]. rewrite Ha. auto.
Qed.

Lemma run_Seq_first (a b : regex) c s (st st' : state) (l l' : list state) :
  run a c s = st :: l -> run b (fst st) (snd st) = st' :: l' ->
  exists l'', run (Seq a b) c s = st' :: l''.
Proof.
  intros Ha Hb. cbn [run]. rewrite Ha. cbn [flat_map]. rewrite Hb.
  eexists. reflexivity.
Qed.

Lemma run_plus_Cls_first (p : N -> bool) c (a : N) (s : jsstring) :
  p a = true -> exists l, run (plus (Cls p)) c (a :: s) = (c, dropWhile p s) :: l.
Proof.
  intros Hp. destruct (run_Star_Cls_head p c s) as [l Hl].
  eapply run_Seq_first with (st := (c, s)).
  - cbn [run]. rewrite Hp. reflexivity.
  - cbn [fst snd]. exact Hl.
Qed.

Lemma run_Group_first (a : regex) c s (st : state) (l : list state) :
  run a c s = st :: l ->
  exists l', run (Group a) c s
             = (Some (firstn (List.length s - List.length (snd st)) s), snd st) :: l'.
Proof. intros H. cbn [run]. rewrite H. cbn [List.map]. eexists. reflexivity. Qed.

Lemma at_line_end_dropWhile (post : jsstring) :
  at_line_end post -> dropWhile is_dot post = post.
Proof.
  intros [->|(a & post' & -> & Ha)]; [reflexivity|].
  cbn [dropWhile]. unfold is_dot. now rewrite Ha.
Qed.

(** After the label: [\s*] takes all the white space, [(.+)] the line. *)
Lemma run_line_first (ws v post : jsstring) (a : N) (v' : jsstring) :
  forallb is_space ws = true ->
  v = a :: v' -> is_space a = false -> forallb is_dot v = true ->
  at_line_end post ->
  exists l,
    run (cat [Star space; Group (plus dot)]) None (ws ++ v ++ post)
    = (Some v, post) :: l.
Proof.
  intros Hws -> Ha Hv Hpost. cbn [cat].
  simpl in Hv. apply andb_true_iff in Hv. destruct Hv as [Hda Hdv].
  destruct (run_Star_Cls_head is_space None (ws ++ (a :: v') ++ post)) as [l1 H1].
  rewrite dropWhile_app_all in H1 by exact Hws.
  cbn [app dropWhile] in H1. rewrite Ha in H1.
  destruct (run_plus_Cls_first is_dot None a (v' ++ post) Hda) as [l2 H2].
  rewrite dropWhile_app_all in H2 by exact Hdv.
  rewrite (at_line_end_dropWhile post Hpost) in H2.
  destruct (run_Group_first (plus dot) None (a :: v' ++ post) _ _ H2) as [l3 H3].
  cbn [snd] in H3.
  change (a :: v' ++ post) with ((a :: v') ++ post) in H3.
  rewrite firstn_app_exact in H3.
  destruct (run_Seq_first (Group (plus dot)) Eps None ((a :: v') ++ post)
              (Some (a :: v'), post) (Some (a :: v'), post) l3 [] H3 eq_refl)
    as [l4 H4].
  eapply run_Seq_first; [exact H1|exact H4].
Qed.

Lemma skipn_length_app (l r : jsstring) : skipn (List.length l) (l ++ r) = r.
Proof. induction l; simpl; auto. Qed.

Lemma labelled_line_recovers (label : String.string) (pre ws v post : jsstring)
      (a : N) (v' : jsstring) :
  index_of (js label) (pre ++ js label ++ ws ++ v ++ post) = Some (List.length pre) ->
  forallb is_space ws = true ->
  v = a :: v' -> is_space a = false -> forallb is_dot v = true ->
  at_line_end post ->
  match1 (labelled label (plus dot)) (pre ++ js label ++ ws ++ v ++ post) = Some v.
Proof.
  intros Hidx Hws Hv Ha Hdot Hpost.
  destruct (run_line_first ws v post a v' Hws Hv Ha Hdot Hpost) as [l Hrun].
  unfold match1, exec, labelled, lit. cbn [cat].
  destruct (exec_from_first_label (js label)
              (Seq (Star space) (Seq (Group (plus dot)) Eps))
              (pre ++ js label ++ ws ++ v ++ post) (List.length pre) 0
              (Some v, post) l Hidx) as (m & Hm & Hg).
  - rewrite <- length_app, app_assoc, skipn_length_app. exact Hrun.
  - rewrite Hm. exact Hg.
Qed.

Lemma forallb_rev (p : N -> bool) (l : jsstring) :
  forallb p l = true -> forallb p (rev l) = true.
Proof.
  intros H. apply forallb_forall. intros x Hx. apply in_rev in Hx.
  rewrite forallb_forall in H. auto.
Qed.

Lemma is_blank_facts (a : N) : is_blank a = true -> is_space a = true /\ is_dot a = true.
Proof. unfold is_blank. intros H. now apply andb_true_iff in H. Qed.

(** Trailing white space goes, a trimmed value stays. *)
Lemma trim_value_blanks (val ws : jsstring) :
  trimmed val -> forallb is_space ws = true -> trim (val ++ ws) = val.
Proof.
  intros (Hne & Hfirst & Hlast) Hws. unfold trim.
  destruct val as [|a val]; [congruence|].
  rewrite (dropWhile_id is_space ((a :: val) ++ ws)) by (exact Hfirst).
  rewrite rev_app_distr, dropWhile_app_all by (now apply forallb_rev).
  rewrite (dropWhile_id is_space (rev (a :: val)) Hlast).
  apply rev_involutive.
Qed.

Lemma labelled_value_recovers (label : String.string) (text val : jsstring) :
  labelled_value (js label) text val ->
  or_null (option_map trim (match1 (labelled label (plus dot)) text)) = Some val.
Proof.
  intros (pre & ws1 & ws2 & post & -> & Hidx & Hws1 & Htrim & Hdot & Hws2 & Hpost).
  assert (Hs2 : forallb is_space ws2 = true)
    by (eapply forallb_weaken; [|exact Hws2]; intros a Ha; now apply is_blank_facts).
  assert (Hd2 : forallb is_dot ws2 = true)
    by (eapply forallb_weaken; [|exact Hws2]; intros a Ha; now apply is_blank_facts).
  destruct Htrim as (Hne & Hfirst & Hlast).
  destruct val as [|a val]; [congruence|].
  assert (Hm : match1 (labelled label (plus dot))
                      (pre ++ js label ++ ws1 ++ (a :: val) ++ ws2 ++ post)
               = Some ((a :: val) ++ ws2)).
  { rewrite (app_assoc (a :: val) ws2 post).
    apply labelled_line_recovers with (a := a) (v' := val ++ ws2).
    - rewrite <- (app_assoc (a :: val) ws2 post). exact Hidx.
    - exact Hws1.
    - reflexivity.
    - apply Hfirst. reflexivity.
    - rewrite forallb_app, Hdot. exact Hd2.
    - exact Hpost. }
  rewrite Hm. cbn [option_map].
  rewrite (trim_value_blanks (a :: val) ws2); [reflexivity| |exact Hs2].
  repeat split; auto.
Qed.

(** X12. A reference, a receiver or a payer written after the first
    occurrence of its label is recovered exactly: whatever white space,
    line breaks included, stands between the label and the value, and
    whatever blanks follow the value up to the end of its line, the field
    is the value. *)
Theorem extractors_recover_values (text val : jsstring) :
  (labelled_value REFERENCE_LABEL text val -> extractReferenceNumber text = Some val) /\
  (labelled_value RECEIVER_LABEL text val -> extractReceiver text = Some val) /\
  (labelled_value PAYER_LABEL text val -> extractPayer text = Some val).
Proof.
  split; [|split]; intros H.
  - exact (labelled_value_recovers "Reference No. (VAT Invoice No)" text val H).
  - exact (labelled_value_recovers "Receiver" text val H).
  - exact (labelled_value_recovers "Payer" text val H).
Qed.

Lemma extractors_recover_values_witness :
  extractReferenceNumber
    (js "Receipt" ++ [10%N]
     ++ REFERENCE_LABEL ++ js "     " ++ js "TXN123456789" ++ js "    "
     ++ ([10%N] ++ js "Payer John Doe"))
  = Some (js "TXN123456789")
  /\ extractPayer
       (js "Receiver" ++ js "   ACME Corporation Ltd   " ++ [10%N]
        ++ PAYER_LABEL ++ [10%N; 32%N] ++ js "John Doe" ++ [9%N] ++ [])
     = Some (js "John Doe").
Proof.
  split.
  - apply (proj1 (extractors_recover_values _ (js "TXN123456789"))).
    exists (js "Receipt" ++ [10%N]), (js "     "), (js "    "),
           ([10%N] ++ js "Payer John Doe").
    split; [reflexivity|]. split; [vm_compute; reflexivity|].
    split; [reflexivity|]. split.
    + repeat split; [discriminate| |]; intros a H; vm_compute in H;
        inversion H; reflexivity.
    + split; [reflexivity|]. split; [reflexivity|].
      right. eexists. eexists. split; reflexivity.
  - apply (proj2 (proj2 (extractors_recover_values _ (js "John Doe")))).
    exists (js "Receiver" ++ js "   ACME Corporation Ltd   " ++ [10%N]),
           [10%N; 32%N], [9%N], [].
    split; [reflexivity|]. split; [vm_compute; reflexivity|].
    split; [reflexivity|]. split.
    + repeat split; [discriminate| |]; intros a H; vm_compute in H;
        inversion H; reflexivity.
    + split; [reflexivity|]. split; [reflexivity|]. now left.
Defined.

(** ** Recovering the amount and the date *)

Lemma first_Seq (a b : regex) c s (st st' : state) :
  first_state a c s st -> first_state b (fst st) (snd st) st' ->
  first_state (Seq a b) c s st'.
Proof. intros [l Ha] [l' Hb]. eapply run_Seq_first; eauto. Qed.

Lemma first_Eps c s : first_state Eps c s (c, s).
Proof. exists []. reflexivity. Qed.

Lemma first_lit_list (L : jsstring) c rest :
  first_state (lit_list L) c (L ++ rest) (c, rest).
Proof.
  induction L as [|a L IH]; cbn [lit_list app].
  - apply first_Eps.
  - apply first_Seq with (st := (c, L ++ rest)); [|exact IH].
    exists []. unfold chr. cbn [run]. now rewrite N.eqb_refl.
Qed.

Lemma first_lit (L : String.string) c rest :
  first_state (lit L) c (js L ++ rest) (c, rest).
Proof. apply first_lit_list. Qed.

Lemma first_rep_Cls (p : N -> bool) (n : nat) :
  forall w c rest,
    List.length w = n -> forallb p w = true ->
    first_state (rep n (Cls p)) c (w ++ rest) (c, rest).
Proof.
  induction n as [|n IH]; intros w c rest Hlen Hall; cbn [rep].
  - destruct w; [apply first_Eps|discriminate].
  - destruct w as [|a w]; [discriminate|].
    simpl in Hall. apply andb_true_iff in Hall. destruct Hall as [Ha Hw].
    apply first_Seq with (st := (c, w ++ rest)).
    + exists []. cbn [run app]. now rewrite Ha.
    + apply IH; auto.
Qed.

Lemma dropWhile_stops_id (p : N -> bool) (rest : jsstring) :
  stops p rest -> dropWhile p rest = rest.
Proof. destruct rest as [|x rest]; cbn; [reflexivity|]. now intros ->. Qed.

Lemma first_Star_Cls (p : N -> bool) (w : jsstring) c rest :
  forallb p w = true -> stops p rest ->
  first_state (Star (Cls p)) c (w ++ rest) (c, rest).
Proof.
  intros Hw Hstop. destruct (run_Star_Cls_head p c (w ++ rest)) as [l Hl].
  rewrite dropWhile_app_all, dropWhile_stops_id in Hl by assumption.
  now exists l.
Qed.

Lemma first_plus_Cls (p : N -> bool) (w : jsstring) c rest :
  w <> [] -> forallb p w = true -> stops p rest ->
  first_state (plus (Cls p)) c (w ++ rest) (c, rest).
Proof.
  intros Hne Hw Hstop. destruct w as [|a w]; [congruence|].
  simpl in Hw. apply andb_true_iff in Hw. destruct Hw as [Ha Hw].
  destruct (run_plus_Cls_first p c a (w ++ rest) Ha) as [l Hl].
  rewrite dropWhile_app_all, dropWhile_stops_id in Hl by assumption.
  now exists l.
Qed.

Lemma first_rep_1_2_Cls (p : N -> bool) (w : jsstring) c rest :
  (1 <= List.length w <= 2)%nat -> forallb p w = true -> stops p rest ->
  first_state (rep_1_2 (Cls p)) c (w ++ rest) (c, rest).
Proof.
  intros Hlen Hw Hstop. unfold rep_1_2, opt.
  destruct w as [|a [|b [|x w]]]; simpl in Hlen; try lia; simpl in Hw.
  - rewrite andb_true_r in Hw.
    apply first_Seq with (st := (c, rest)).
    + exists []. cbn [run app]. now rewrite Hw.
    + cbn [fst snd]. exists []. cbn [run].
      destruct rest as [|x rest]; [reflexivity|]. cbn in Hstop. now rewrite Hstop.
  - rewrite andb_true_r in Hw. apply andb_true_iff in Hw. destruct Hw as [Ha Hb].
    apply first_Seq with (st := (c, b :: rest)).
    + exists []. cbn [run app]. now rewrite Ha.
    + cbn [fst snd]. eexists. cbn [run]. rewrite Hb. reflexivity.
Qed.

Lemma first_Group (r : regex) c (w rest : jsstring) (c1 : option jsstring) :
  first_state r c (w ++ rest) (c1, rest) ->
  first_state (Group r) c (w ++ rest) (Some w, rest).
Proof.
  intros [l Hl]. destruct (run_Group_first r c (w ++ rest) _ _ Hl) as [l' Hl'].
  cbn [snd] in Hl'. rewrite firstn_app_exact in Hl'. now exists l'.
Qed.

(** The first match of a labelled pattern, from the first match of its
    group. *)
Lemma labelled_first (label : String.string) (g : regex)
      (pre ws cap post : jsstring) (c1 : option jsstring) :
  index_of (js label) (pre ++ js label ++ ws ++ cap ++ post) = Some (List.length pre) ->
  forallb is_space ws = true -> stops is_space (cap ++ post) ->
  first_state g None (cap ++ post) (c1, post) ->
  match1 (labelled label g) (pre ++ js label ++ ws ++ cap ++ post) = Some cap.
Proof.
  intros Hidx Hws Hstop Hg.
  assert (Hrun : first_state (cat [Star space; Group g]) None
                             (ws ++ cap ++ post) (Some cap, post)).
  { cbn [cat]. apply first_Seq with (st := (None, cap ++ post)).
    - now apply first_Star_Cls.
    - cbn [fst snd]. apply first_Seq with (st := (Some cap, post)).
      + eapply first_Group; eauto.
      + apply first_Eps. }
  destruct Hrun as [l Hrun].
  unfold match1, exec, labelled, lit. cbn [cat].
  destruct (exec_from_first_label (js label)
              (Seq (Star space) (Seq (Group g) Eps))
              (pre ++ js label ++ ws ++ cap ++ post) (List.length pre) 0
              (Some cap, post) l Hidx) as (m & Hm & Hgr).
  - rewrite <- length_app, app_assoc, skipn_length_app. exact Hrun.
  - rewrite Hm. exact Hgr.
Qed.

Lemma is_space_not_amount_char (a : N) : is_space a = true -> is_amount_char a = false.
Proof.
  intros H. destruct (is_amount_char a) eqn:E; [|reflexivity].
  apply is_amount_char_not_space in E. congruence.
Qed.

Lemma amount_group_first (num ws post : jsstring) :
  num <> [] -> forallb is_amount_char num = true -> forallb is_space ws = true ->
  first_state (cat [plus (Cls is_amount_char); Star space; lit "ETB"]) None
              ((num ++ ws ++ js "ETB") ++ post) (None, post).
Proof.
  intros Hne Hnum Hws. rewrite <- !app_assoc. cbn [cat]. unfold space.
  eapply first_Seq.
  { apply first_plus_Cls; [exact Hne|exact Hnum|].
    destruct ws as [|a ws]; [reflexivity|].
    simpl in Hws. apply andb_true_iff in Hws. destruct Hws as [Ha _].
    cbn. now apply is_space_not_amount_char. }
  cbn [fst snd]. eapply first_Seq.
  { apply first_Star_Cls; [exact Hws|reflexivity]. }
  cbn [fst snd]. eapply first_Seq; [apply first_lit|apply first_Eps].
Qed.

(** X13. An amount written after the first occurrence of its label, as
    digits, commas and points, optional white space and [ETB], is
    recovered as it stands, whatever white space stands between the label
    and the amount and whatever follows [ETB]. *)
Theorem extractTotalAmount_recovers (pre ws amount post : jsstring) :
  index_of AMOUNT_LABEL (pre ++ AMOUNT_LABEL ++ ws ++ amount ++ post)
  = Some (List.length pre) ->
  forallb is_space ws = true ->
  receipt_amount_format amount ->
  extractTotalAmount (pre ++ AMOUNT_LABEL ++ ws ++ amount ++ post) = Some amount.
Proof.
  intros Hidx Hws Hfmt.
  destruct (receipt_amount_format_facts _ Hfmt) as [Hne Htrim].
  destruct Hfmt as (num & ws' & Heq & Hnum_ne & Hnum & Hws').
  assert (Hm : match1 PDF_EXTRACTION_PATTERNS.TOTAL_AMOUNT
                      (pre ++ AMOUNT_LABEL ++ ws ++ amount ++ post) = Some amount).
  { apply (labelled_first "Total amount debited from customers account"
             _ pre ws amount post None Hidx Hws).
    - subst amount. destruct num as [|a num]; [congruence|].
      simpl in Hnum. apply andb_true_iff in Hnum. destruct Hnum as [Ha _].
      cbn. now apply is_amount_char_not_space.
    - subst amount. now apply amount_group_first. }
  unfold extractTotalAmount. rewrite Hm. cbn [option_map or_null].
  rewrite Htrim. destruct amount; [congruence|reflexivity].
Qed.

Lemma extractTotalAmount_recovers_witness :
  extractTotalAmount
    (js "Receiver ACME" ++ [10%N]
     ++ AMOUNT_LABEL ++ js "   " ++ js "1,500.00 ETB" ++ js "   and more")
  = Some (js "1,500.00 ETB").
Proof.
  apply (extractTotalAmount_recovers (js "Receiver ACME" ++ [10%N])).
  - vm_compute. reflexivity.
  - reflexivity.
  - exists (js "1,500.00"), (js " "). repeat split. discriminate.
Defined.

Lemma first_am_pm (ap : jsstring) c rest :
  ap = js "AM" \/ ap = js "PM" ->
  first_state (Alt (lit "AM") (lit "PM")) c (ap ++ rest) (c, rest).
Proof.
  intros [->| ->].
  - destruct (first_lit "AM" c rest) as [l Hl].
    eexists. cbn [run]. rewrite Hl. reflexivity.
  - destruct (first_lit "PM" c rest) as [l Hl].
    eexists. cbn [run].
    replace (run (lit "AM") c (js "PM" ++ rest)) with (@nil state) by reflexivity.
    rewrite Hl. reflexivity.
Qed.

Lemma date_group_first (c post : jsstring) :
  receipt_date_format c ->
  first_state
    (cat [rep_1_2 digit; lit "/"; rep_1_2 digit; lit "/"; rep 4 digit;
          lit ", "; rep_1_2 digit; lit ":"; rep 2 digit; lit ":";
          rep 2 digit; lit " "; Alt (lit "AM") (lit "PM")])
    None (c ++ post) (None, post).
Proof.
  intros (mo & d & y & hh & mi & ss & ap & -> &
          [Hmo1 Hmo2] & [Hd1 Hd2] & [Hy1 Hy2] & [Hh1 Hh2] & [Hmi1 Hmi2] &
          [Hs1 Hs2] & Hap).
  rewrite <- !app_assoc. cbn [cat]. unfold digit.
  eapply first_Seq; [apply first_rep_1_2_Cls; [lia|assumption|reflexivity]|cbn [fst snd]].
  eapply first_Seq; [apply first_lit|cbn [fst snd]].
  eapply first_Seq; [apply first_rep_1_2_Cls; [lia|assumption|reflexivity]|cbn [fst snd]].
  eapply first_Seq; [apply first_lit|cbn [fst snd]].
  eapply first_Seq; [apply first_rep_Cls; [lia|assumption]|cbn [fst snd]].
  eapply first_Seq; [apply first_lit|cbn [fst snd]].
  eapply first_Seq; [apply first_rep_1_2_Cls; [lia|assumption|reflexivity]|cbn [fst snd]].
  eapply first_Seq; [apply first_lit|cbn [fst snd]].
  eapply first_Seq; [apply first_rep_Cls; [lia|assumption]|cbn [fst snd]].
  eapply first_Seq; [apply first_lit|cbn [fst snd]].
  eapply first_Seq; [apply first_rep_Cls; [lia|assumption]|cbn [fst snd]].
  eapply first_Seq; [apply first_lit|cbn [fst snd]].
  eapply first_Seq; [apply first_am_pm; exact Hap|apply first_Eps].
Qed.

Lemma extractPaymentDateTime_written (h : Host) (pre ws c post : jsstring) :
  index_of DATE_LABEL (pre ++ DATE_LABEL ++ ws ++ c ++ post) = Some (List.length pre) ->
  forallb is_space ws = true ->
  receipt_date_format c ->
  extractPaymentDateTime h (pre ++ DATE_LABEL ++ ws ++ c ++ post)
  = Some (Date_parse h c).
Proof.
  intros Hidx Hws Hfmt.
  apply extractPaymentDateTime_captured.
  apply (labelled_first "Payment Date & Time" _ pre ws c post None Hidx Hws).
  - destruct Hfmt as (mo & d & y & hh & mi & ss & ap & -> & Hmo & _).
    destruct (digits_nonempty_hd 1 2 mo (le_n 1) Hmo) as (a & r & -> & Ha).
    cbn. now apply is_digit_not_space.
  - now apply date_group_first.
Qed.

(** X14. A payment date written after the first occurrence of its label
    in the format [M/D/YYYY, h:mm:ss AM|PM] is handed as it stands to the
    [Date] constructor, whose result is the timestamp, whatever white
    space stands between the label and the date and whatever follows it;
    and a timestamp is never anything but the [Date] made of a text in
    that format that follows the label. *)
Theorem extractPaymentDateTime_recovers (h : Host) (text : jsstring) :
  (forall pre ws c post,
      text = pre ++ DATE_LABEL ++ ws ++ c ++ post ->
      index_of DATE_LABEL text = Some (List.length pre) ->
      forallb is_space ws = true ->
      receipt_date_format c ->
      extractPaymentDateTime h text = Some (Date_parse h c)) /\
  (forall d, extractPaymentDateTime h text = Some d ->
             exists c post,
               receipt_date_format c /\ follows_label DATE_LABEL text c post /\
               d = Date_parse h c).
Proof.
  split.
  - intros pre ws c post -> Hidx Hws Hfmt. now apply extractPaymentDateTime_written.
  - intros d H.
    destruct (match1 PDF_EXTRACTION_PATTERNS.PAYMENT_DATE_TIME text) as [c|] eqn:Hm.
    + rewrite (extractPaymentDateTime_captured h _ _ Hm) in H.
      destruct (date_capture _ _ Hm) as [Hfmt [post Hpost]].
      exists c, post. repeat split; auto. congruence.
    + unfold extractPaymentDateTime in H. rewrite Hm in H. discriminate.
Qed.

Lemma extractPaymentDateTime_recovers_witness :
  extractPaymentDateTime SampleHost.host
    (js "Receipt " ++ DATE_LABEL ++ [10%N; 32%N] ++ js "1/5/2024, 9:05:00 AM"
     ++ js " (local time)")
  = Some (Date_parse SampleHost.host (js "1/5/2024, 9:05:00 AM"))
  /\ exists c post,
       receipt_date_format c /\
       follows_label DATE_LABEL SampleHost.receipt_text c post /\
       ValidDate 1703514645000 = Date_parse SampleHost.host c.
Proof.
  split.
  - apply (proj1 (extractPaymentDateTime_recovers SampleHost.host _)
             (js "Receipt ") [10%N; 32%N] (js "1/5/2024, 9:05:00 AM")
             (js " (local time)")).
    + reflexivity.
    + vm_compute. reflexivity.
    + reflexivity.
    + exists (js "1"), (js "5"), (js "2024"), (js "9"), (js "05"), (js "00"), (js "AM").
      unfold digits. repeat split; simpl; auto; lia.
  - apply (proj2 (extractPaymentDateTime_recovers SampleHost.host
                    SampleHost.receipt_text)).
    vm_compute. reflexivity.
Defined.

(** ** From the receipt to the record *)

(** X15. On a text in which a reference and a payment date are written
    after their labels, with a date that the [Date] constructor reads as
    the point in time [t]: when the age of [t] in whole hours is at most
    the limit, [extractTransactionDetails] returns a record that holds
    that reference and that timestamp; when it is greater, it throws the
    too-old error with the limit and the age. *)
Theorem extractTransactionDetails_written (h : Host)
        (config : PaymentVerificationConfig)
        (text ref pre ws c post : jsstring) (t : Z) :
  labelled_value REFERENCE_LABEL text ref ->
  text = pre ++ DATE_LABEL ++ ws ++ c ++ post ->
  index_of DATE_LABEL text = Some (List.length pre) ->
  forallb is_space ws = true ->
  receipt_date_format c ->
  Date_parse h c = ValidDate t ->
  ((inject_Z (Z.quot (clock h - t) MILLISECONDS_A_HOUR) <= effective_max_age config)%Q ->
   exists d, extractTransactionDetails h text config = Ok d /\
             transactionRefNumber d = Some ref /\
             paymentDateTime d = Some (ValidDate t)) /\
  ((effective_max_age config < inject_Z (Z.quot (clock h - t) MILLISECONDS_A_HOUR))%Q ->
   extractTransactionDetails h text config
   = Throw (TransactionTooOld (effective_max_age config)
              (Z.quot (clock h - t) MILLISECONDS_A_HOUR))).
Proof.
  intros Href Htext Hidx Hws Hfmt Hparse.
  assert (Hr : extractReferenceNumber text = Some ref)
    by exact (labelled_value_recovers "Reference No. (VAT Invoice No)" text ref Href).
  assert (Hd : extractPaymentDateTime h text = Some (ValidDate t)).
  { subst text. rewrite extractPaymentDateTime_written by assumption.
    now rewrite Hparse. }
  destruct (extractReferenceNumber_trimmed _ _ Hr) as [Hne _].
  assert (Hunfold :
            extractTransactionDetails h text config
            = match validateTransactionAge h (ValidDate t) (effective_max_age config) with
              | Throw e => Throw e
              | Ok _ => Ok (extractedDetails h text)
              end).
  { unfold extractTransactionDetails, effective_max_age.
    cbn [extractedDetails transactionRefNumber paymentDateTime].
    rewrite Hr, Hd. destruct ref; [congruence|reflexivity]. }
  split; intros Hage.
  - exists (extractedDetails h text).
    rewrite Hunfold, (validateTransactionAge_fresh h t _ Hage).
    cbn [extractedDetails transactionRefNumber paymentDateTime]. auto.
  - now rewrite Hunfold, (validateTransactionAge_too_old h t _ Hage).
Qed.

Lemma extractTransactionDetails_written_witness :
  (exists d,
      extractTransactionDetails SampleHost.host SampleHost.receipt_text
                                SampleHost.config = Ok d /\
      transactionRefNumber d = Some (js "FT25200VMC5N") /\
      paymentDateTime d = Some (ValidDate 1703514645000))
  /\ extractTransactionDetails
       {| clock := clock SampleHost.host + 100 * MILLISECONDS_A_HOUR;
          Date_parse := Date_parse SampleHost.host;
          extractTextFromPdfUrl := extractTextFromPdfUrl SampleHost.host |}
       SampleHost.receipt_text SampleHost.config
     = Throw (TransactionTooOld 24 100).
Proof.
  assert (Href : labelled_value REFERENCE_LABEL SampleHost.receipt_text
                                (js "FT25200VMC5N")).
  { exists [], (js "   "), [],
           ([10%N] ++ js "Payment Date & Time 12/25/2023, 2:30:45 PM"
            ++ [10%N] ++ js "Total amount debited from customers account 1,500.00 ETB"
            ++ [10%N] ++ js "Receiver ACME Corporation Ltd"
            ++ [10%N] ++ js "Payer John Doe").
    split; [vm_compute; reflexivity|]. split; [vm_compute; reflexivity|].
    split; [reflexivity|]. split.
    - repeat split; [discriminate| |]; intros a H; vm_compute in H;
        inversion H; reflexivity.
    - split; [reflexivity|]. split; [reflexivity|].
      right. eexists. eexists. split; reflexivity. }
  assert (Hfmt : receipt_date_format (js "12/25/2023, 2:30:45 PM")).
  { exists (js "12"), (js "25"), (js "2023"), (js "2"), (js "30"), (js "45"), (js "PM").
    unfold digits. repeat split; simpl; auto; lia. }
  split.
  - apply (proj1 (extractTransactionDetails_written SampleHost.host SampleHost.config
             SampleHost.receipt_text (js "FT25200VMC5N")
             (js "Reference No. (VAT Invoice No)   FT25200VMC5N" ++ [10%N])
             (js " ") (js "12/25/2023, 2:30:45 PM")
             ([10%N] ++ js "Total amount debited from customers account 1,500.00 ETB"
              ++ [10%N] ++ js "Receiver ACME Corporation Ltd"
              ++ [10%N] ++ js "Payer John Doe")
             1703514645000 Href
             ltac:(vm_compute; reflexivity) ltac:(vm_compute; reflexivity)
             eq_refl Hfmt ltac:(vm_compute; reflexivity))).
    vm_compute. discriminate.
  - apply (proj2 (extractTransactionDetails_written
             {| clock := clock SampleHost.host + 100 * MILLISECONDS_A_HOUR;
                Date_parse := Date_parse SampleHost.host;
                extractTextFromPdfUrl := extractTextFromPdfUrl SampleHost.host |}
             SampleHost.config
             SampleHost.receipt_text (js "FT25200VMC5N")
             (js "Reference No. (VAT Invoice No)   FT25200VMC5N" ++ [10%N])
             (js " ") (js "12/25/2023, 2:30:45 PM")
             ([10%N] ++ js "Total amount debited from customers account 1,500.00 ETB"
              ++ [10%N] ++ js "Receiver ACME Corporation Ltd"
              ++ [10%N] ++ js "Payer John Doe")
             1703514645000 Href
             ltac:(vm_compute; reflexivity) ltac:(vm_compute; reflexivity)
             eq_refl Hfmt ltac:(vm_compute; reflexivity))).
    vm_compute. reflexivity.
Defined.

(** ** [verifyPayment] *)

(** Case of [test/payment-verifier.test.ts]: minimal configuration. *)
Example verifyPayment_minimal :
  snd (verifyPayment SampleHost.host (VString (js "FT25200VMC5N56279011"))
                     (js "1000188961473") no_overrides [])
  = [(js "https://apps.cbe.com.et:100/?id=FT25200VMC5N5627901188961473",
      {| cbeAccountNumber := js "1000188961473";
         maxTransactionAgeHours := Some 24;
         rejectUnauthorized := Some false |})].
Proof. vm_compute. reflexivity. Qed.

(** The age limit does not reach the parser through anything but
    [effective_max_age]. *)
Lemma extractTransactionDetails_limit (h : Host) (text : jsstring)
      (config config' : PaymentVerificationConfig) :
  effective_max_age config = effective_max_age config' ->
  extractTransactionDetails h text config = extractTransactionDetails h text config'.
Proof.
  intros H. unfold extractTransactionDetails.
  fold (effective_max_age config). fold (effective_max_age config').
  now rewrite H.
Qed.

Lemma verifyPayment_with_account (h : Host) (input : JSValue)
      (accountNumber : jsstring) (options : ConfigOverrides) (a : jsstring) :
  options_account accountNumber options = Some a ->
  verifyPayment h input accountNumber options
  = verifyDirectDeposit h input (options_config a options).
Proof.
  unfold verifyPayment, verifyDirectDeposit_on, createDefaultConfig, options_account,
    options_config.
  cbn [object_cbeAccountNumber object_maxTransactionAgeHours object_rejectUnauthorized].
  destruct (override_cbeAccountNumber options) as [[a0|]|]; intros H;
    inversion H; subst; reflexivity.
Qed.

Lemma verifyPayment_undefined_account (h : Host) (input : JSValue)
      (accountNumber : jsstring) (options : ConfigOverrides) (log : list request) :
  options_account accountNumber options = None ->
  verifyPayment h input accountNumber options log
  = match validateInput input with
    | Ok _ => (Throw MissingAccountNumber, log)
    | Throw e => (Throw e, log)
    end.
Proof.
  unfold verifyPayment, verifyDirectDeposit_on, createDefaultConfig, options_account.
  cbn [object_cbeAccountNumber].
  destruct (override_cbeAccountNumber options) as [[a0|]|]; intros H;
    try discriminate.
  unfold bind, lift, throw. destruct (validateInput input); reflexivity.
Qed.

(** X16. [verifyPayment] on an input that [validateInput] rejects fails
    with that error.  On an accepted input, the account number in force is
    the one of the options when they hold one, and the positional one
    otherwise: when it is [undefined] or empty the missing-account error
    is thrown, and in all these cases nothing is fetched.  With an account
    number in force, the PDF extractor is called once, on the URL built
    from that account number, with the options laid over the defaults (24
    hours, [false]); its error is the result, and its text is parsed under
    the age limit of the options, or 24 hours when they give none or give
    [undefined]: a receipt within that limit is returned and an older one
    is rejected with the too-old error. *)
Theorem verifyPayment_options (h : Host) (input : JSValue)
        (accountNumber : jsstring) (options : ConfigOverrides) (log : list request) :
  (forall e, validateInput input = Throw e ->
             verifyPayment h input accountNumber options log = (Throw e, log)) /\
  (validateInput input = Ok tt ->
   (options_account accountNumber options = None \/
    options_account accountNumber options = Some []) ->
   verifyPayment h input accountNumber options log = (Throw MissingAccountNumber, log)) /\
  (forall a,
      validateInput input = Ok tt ->
      options_account accountNumber options = Some a -> a <> [] ->
      exists url,
        constructPdfUrl (string_of input) a = Ok url /\
        snd (verifyPayment h input accountNumber options log)
        = log ++ [(url, options_config a options)] /\
        (forall e, extractTextFromPdfUrl h url (options_config a options) = Throw e ->
                   fst (verifyPayment h input accountNumber options log) = Throw e) /\
        (forall text,
            extractTextFromPdfUrl h url (options_config a options) = Ok text ->
            fst (verifyPayment h input accountNumber options log)
            = extractTransactionDetails h text
                {| cbeAccountNumber := a;
                   maxTransactionAgeHours := Some (options_max_age options);
                   rejectUnauthorized := None |} /\
            (forall ref t,
                extractReferenceNumber text = Some ref ->
                extractPaymentDateTime h text = Some (ValidDate t) ->
                ((inject_Z (Z.quot (clock h - t) 3600000) <= options_max_age options)%Q ->
                 fst (verifyPayment h input accountNumber options log)
                 = Ok (extractedDetails h text)) /\
                ((options_max_age options < inject_Z (Z.quot (clock h - t) 3600000))%Q ->
                 fst (verifyPayment h input accountNumber options log)
                 = Throw (TransactionTooOld (options_max_age options)
                            (Z.quot (clock h - t) 3600000)))))).
Proof.
  split; [|split].
  - intros e He.
    destruct (options_account accountNumber options) as [a|] eqn:Hacct.
    + rewrite (verifyPayment_with_account h input _ _ a Hacct).
      now apply verifyDirectDeposit_rejects.
    + now rewrite verifyPayment_undefined_account, He.
  - intros Hin [Hacct|Hacct].
    + now rewrite verifyPayment_undefined_account, Hin.
    + rewrite (verifyPayment_with_account h input _ _ [] Hacct).
      rewrite verifyDirectDeposit_cases, Hin. reflexivity.
  - intros a Hin Hacct Hne.
    rewrite (verifyPayment_with_account h input _ _ a Hacct).
    destruct (validateInput_ok_string _ Hin) as [s ->].
    destruct (constructPdfUrl_on_valid s a Hin) as [url Hurl].
    exists url. split; [exact Hurl|].
    assert (Hrun :
              verifyDirectDeposit h (VString s) (options_config a options) log
              = (match extractTextFromPdfUrl h url (options_config a options) with
                 | Ok pdfText =>
                     extractTransactionDetails h pdfText (options_config a options)
                 | Throw e => Throw e
                 end,
                 log ++ [(url, options_config a options)])).
    { rewrite verifyDirectDeposit_cases, Hin.
      unfold options_config at 1 2. cbn [cbeAccountNumber string_of].
      rewrite Hurl. destruct a; [congruence|reflexivity]. }
    rewrite Hrun. cbn [fst snd].
    split; [reflexivity|]. split.
    + intros e ->. reflexivity.
    + intros text ->.
      assert (Hlimit :
                extractTransactionDetails h text (options_config a options)
                = extractTransactionDetails h text
                    {| cbeAccountNumber := a;
                       maxTransactionAgeHours := Some (options_max_age options);
                       rejectUnauthorized := None |}).
      { apply extractTransactionDetails_limit.
        unfold effective_max_age, options_config, options_max_age.
        cbn [maxTransactionAgeHours].
        destruct (override_maxTransactionAgeHours options) as [[m|]|]; reflexivity. }
      split; [exact Hlimit|].
      intros ref t Href Hdt.
      destruct (extractReferenceNumber_trimmed _ _ Href) as [Hne' _].
      assert (Hunfold :
                extractTransactionDetails h text (options_config a options)
                = match validateTransactionAge h (ValidDate t) (options_max_age options) with
                  | Throw e => Throw e
                  | Ok _ => Ok (extractedDetails h text)
                  end).
      { rewrite Hlimit. unfold extractTransactionDetails.
        cbn [extractedDetails transactionRefNumber paymentDateTime maxTransactionAgeHours].
        rewrite Href, Hdt. destruct ref; [congruence|reflexivity]. }
      rewrite Hunfold. change 3600000%Z with MILLISECONDS_A_HOUR.
      split; intros Hage.
      * now rewrite (validateTransactionAge_fresh h t _ Hage).
      * now rewrite (validateTransactionAge_too_old h t _ Hage).
Qed.

Lemma verifyPayment_options_witness :
  fst (verifyPayment
         {| clock := clock SampleHost.host + 25 * 3600000;
            Date_parse := Date_parse SampleHost.host;
            extractTextFromPdfUrl := extractTextFromPdfUrl SampleHost.host |}
         (VString (js "FT25200VMC5N56279011")) (js "99999999")
         {| override_cbeAccountNumber := Some (Some (js "1000188961473"));
            override_maxTransactionAgeHours := Some (Some 48);
            override_rejectUnauthorized := None |} [])
  = Ok (extractedDetails
          {| clock := clock SampleHost.host + 25 * 3600000;
             Date_parse := Date_parse SampleHost.host;
             extractTextFromPdfUrl := extractTextFromPdfUrl SampleHost.host |}
          SampleHost.receipt_text)
  /\ verifyPayment SampleHost.host (VString (js "FT25200VMC5N56279011"))
       (js "1000188961473")
       {| override_cbeAccountNumber := Some None;
          override_maxTransactionAgeHours := None;
          override_rejectUnauthorized := None |} []
     = (Throw MissingAccountNumber, []).
Proof.
  split.
  - destruct (proj2 (proj2 (verifyPayment_options
       {| clock := clock SampleHost.host + 25 * 3600000;
          Date_parse := Date_parse SampleHost.host;
          extractTextFromPdfUrl := extractTextFromPdfUrl SampleHost.host |}
       (VString (js "FT25200VMC5N56279011")) (js "99999999")
       {| override_cbeAccountNumber := Some (Some (js "1000188961473"));
          override_maxTransactionAgeHours := Some (Some 48);
          override_rejectUnauthorized := None |} []))
       (js "1000188961473") ltac:(vm_compute; reflexivity) eq_refl
       ltac:(discriminate)) as (url & _ & _ & _ & Htext).
    apply (proj1 (proj2 (Htext SampleHost.receipt_text eq_refl)
                        (js "FT25200VMC5N") 1703514645000%Z
                        ltac:(vm_compute; reflexivity) ltac:(vm_compute; reflexivity))).
    vm_compute. discriminate.
  - apply (proj1 (proj2 (verifyPayment_options SampleHost.host
             (VString (js "FT25200VMC5N56279011")) (js "1000188961473")
             {| override_cbeAccountNumber := Some None;
                override_maxTransactionAgeHours := None;
                override_rejectUnauthorized := None |} []))).
    + vm_compute. reflexivity.
    + left. reflexivity.
Defined.
